(** * Cobra Wars: the core simulation of [reptile.py], [vitalityorb.py] and
    [matchcontroller.py], embedded as state-passing functions with Python's
    exceptions made explicit.

    Python integers are unbounded, hence [Z]; [//] is floor division ([Z.div])
    and [%] takes the sign of the divisor ([Z.modulo]).  Rendering (canvas,
    fonts, images) is left out: no simulation step reads it back. *)

From Stdlib Require Import ZArith QArith Ascii String.
From stdpp Require Import gmap strings list fin_maps.

Local Open Scope Z_scope.

(** ** Exceptions *)

Inductive exn : Type :=
  | IndexError
  | ValueError
  | AttributeError (name : string).

Inductive result (A : Type) : Type :=
  | Ok (a : A)
  | Raise (e : exn).
Arguments Ok {A} a.
Arguments Raise {A} e.

Definition bind {A B : Type} (m : result A) (k : A -> result B) : result B :=
  match m with
  | Ok a => k a
  | Raise e => Raise e
  end.

Notation "x <- m ;; k" := (bind m (fun x => k))
  (at level 100, m at next level, right associativity).

Definition is_ok {A : Type} (m : result A) : bool :=
  match m with Ok _ => true | Raise _ => false end.

(** ** Configuration values (identical in the three modules) *)

Definition DISPLAY_WIDTH : Z := 1200.
Definition DISPLAY_HEIGHT : Z := 900.
Definition REPTILE_DIMENSION : Z := 20.
Definition ORB_RESPAWN_TIME : Q := 20%Q.

(** Number of grid columns and rows: [DISPLAY_WIDTH // REPTILE_DIMENSION] and
    [DISPLAY_HEIGHT // REPTILE_DIMENSION]. *)
Definition GRID_W : Z := DISPLAY_WIDTH / REPTILE_DIMENSION.
Definition GRID_H : Z := DISPLAY_HEIGHT / REPTILE_DIMENSION.

(** ** Points

    Every position and direction of the program is a dict built by a literal
    with exactly the keys ['x'] and ['y'].  None is mutated after creation
    (lists and attributes are rebound instead), so a value record is faithful;
    [==] on such dicts is equality of both entries. *)

Record Point : Type := mkPoint { px : Z; py : Z }.

#[global] Instance Point_eq_dec : EqDecision Point.
Proof. solve_decision. Defined.

Definition MOVE_RIGHT : Point := mkPoint 1 0.
Definition MOVE_LEFT : Point := mkPoint (-1) 0.
Definition MOVE_UP : Point := mkPoint 0 (-1).
Definition MOVE_DOWN : Point := mkPoint 0 1.

Definition Color : Type := (Z * Z * Z)%type.
Definition COLOR_YELLOW : Color := (255, 223, 0).
Definition COLOR_ORANGE : Color := (255, 69, 0).

(** ** Python list primitives used by the program *)

(** [l[0]] *)
Definition getitem0 {A : Type} (l : list A) : result A :=
  match l with
  | [] => Raise IndexError
  | a :: _ => Ok a
  end.

(** [l[-1]] *)
Definition getitem_last {A : Type} (l : list A) : result A :=
  match last l with
  | None => Raise IndexError
  | Some a => Ok a
  end.

(** [l.pop()]: the list without its last element (the popped value is never
    used by the program). *)
Definition pop {A : Type} (l : list A) : result (list A) :=
  match l with
  | [] => Raise IndexError
  | _ :: _ => Ok (removelast l)
  end.

(** [l.remove(a)]: drops the first element equal to [a], [ValueError] when
    there is none. *)
Fixpoint list_remove {A : Type} `{EqDecision A} (a : A) (l : list A)
  : result (list A) :=
  match l with
  | [] => Raise ValueError
  | b :: l' =>
      if decide (b = a) then Ok l'
      else (r <- list_remove a l' ;; Ok (b :: r))
  end.

(** ** reptile.py *)

Module Reptile.

Record t : Type := mk {
  segments : list Point;
  move_direction : Point;
  tint : Color;
  vitality : Z;
  tally : Z
}.

Definition set_segments (s : list Point) (r : t) : t :=
  mk s (move_direction r) (tint r) (vitality r) (tally r).
Definition set_move_direction (d : Point) (r : t) : t :=
  mk (segments r) d (tint r) (vitality r) (tally r).
Definition set_vitality (v : Z) (r : t) : t :=
  mk (segments r) (move_direction r) (tint r) v (tally r).
Definition set_tally (n : Z) (r : t) : t :=
  mk (segments r) (move_direction r) (tint r) (vitality r) n.

(** [__init__] *)
Definition init (start_position move_direction : Point) (tint : Color) : t :=
  mk [start_position] move_direction tint 100 0.

(** The cell [move] computes for the new head. *)
Definition new_head (head dir : Point) : Point :=
  mkPoint ((px head + px dir) mod GRID_W) ((py head + py dir) mod GRID_H).

(** [move]: [insert(0, new_head)] followed by [pop()]. *)
Definition move (r : t) : result t :=
  head <- getitem0 (segments r) ;;
  let inserted := new_head head (move_direction r) :: segments r in
  popped <- pop inserted ;;
  Ok (set_segments popped r).

(** [expand]: [segments.append(segments[-1])]. *)
Definition expand (r : t) : result t :=
  tail <- getitem_last (segments r) ;;
  Ok (set_segments (segments r ++ [tail]) r).

(** [detect_collision] *)
Definition detect_collision (r : t) (item : Point) : result bool :=
  head <- getitem0 (segments r) ;;
  Ok (bool_decide (px head = px item) && bool_decide (py head = py item)).

(** [detect_self_impact]: [segments[0] in segments[1:]]. *)
Definition detect_self_impact (r : t) : result bool :=
  head <- getitem0 (segments r) ;;
  Ok (bool_decide (head ∈ drop 1 (segments r))).

End Reptile.

(** ** The outside world: random numbers, the clock, object identities

    [randint] and [time.time()] are the program's only inputs besides the
    event queue.  The world supplies one raw number per [randint] call and
    one reading per clock call; [allocs] counts the [VitalityOrb] objects
    created so far and gives each its identity.  A clock reading is a double,
    hence a rational; the rounding of the float subtraction in
    [replenish_vitality_orbs] is not modelled. *)

Record World : Type := mkWorld {
  entropy : nat -> Z;
  draws : nat;
  wall_clock : nat -> Q;
  reads : nat;
  allocs : nat
}.

(** [randint(lo, hi)]: an integer of [lo..hi], both ends included. *)
Definition randint (lo hi : Z) (w : World) : Z * World :=
  (lo + entropy w (draws w) mod (hi - lo + 1),
   mkWorld (entropy w) (S (draws w)) (wall_clock w) (reads w) (allocs w)).

(** [time.time()] *)
Definition time_time (w : World) : Q * World :=
  (wall_clock w (reads w),
   mkWorld (entropy w) (draws w) (wall_clock w) (S (reads w)) (allocs w)).

(** ** vitalityorb.py *)

Module VitalityOrb.

(** An orb is an object without [__eq__]: [==] (used by [list.remove]) is
    identity.  [ident] is the identity of the object. *)
Record t : Type := mk { ident : nat; coordinates : Point }.

#[global] Instance eq_dec : EqDecision t.
Proof. solve_decision. Defined.

(** [regenerate] *)
Definition regenerate (w : World) : Point * World :=
  let '(coord_x, w) := randint 0 (DISPLAY_WIDTH / REPTILE_DIMENSION - 1) w in
  let '(coord_y, w) := randint 0 (DISPLAY_HEIGHT / REPTILE_DIMENSION - 1) w in
  (mkPoint coord_x coord_y, w).

(** [VitalityOrb()] *)
Definition init (w : World) : t * World :=
  let '(c, w) := regenerate w in
  (mk (allocs w) c,
   mkWorld (entropy w) (draws w) (wall_clock w) (reads w) (S (allocs w))).

Definition ORB_RADIUS : Z := 10.

(** [render]: the centre and the radius handed to [pygame.draw.circle]. *)
Definition render (o : t) : (Z * Z) * Z :=
  ((px (coordinates o) * REPTILE_DIMENSION + REPTILE_DIMENSION / 2,
    py (coordinates o) * REPTILE_DIMENSION + REPTILE_DIMENSION / 2),
   ORB_RADIUS).

End VitalityOrb.

(** ** pygame values the controller consumes *)

(** [pygame.Rect]: true as a condition iff width and height are non-zero;
    [collidepoint] excludes the right and bottom edges. *)
Record Rect : Type :=
  mkRect { rect_left : Z; rect_top : Z; rect_width : Z; rect_height : Z }.

Definition Rect_truthy (r : Rect) : bool :=
  negb (rect_width r =? 0) && negb (rect_height r =? 0).

Definition collidepoint (r : Rect) (pos : Z * Z) : bool :=
  (rect_left r <=? fst pos) && (fst pos <? rect_left r + rect_width r) &&
  (rect_top r <=? snd pos) && (snd pos <? rect_top r + rect_height r).

Inductive Key : Type :=
  | K_BACKSPACE | K_w | K_a | K_s | K_d
  | K_UP | K_LEFT | K_DOWN | K_RIGHT
  | K_other (code : Z).

#[global] Instance Key_eq_dec : EqDecision Key.
Proof. solve_decision. Defined.

(** [unicode] is the text the key press produced (one character, or empty). *)
Inductive Event : Type :=
  | QUIT
  | MOUSEBUTTONDOWN (pos : Z * Z)
  | KEYDOWN (key : Key) (unicode : string)
  | OtherEvent.

(** ** Text primitives *)

Definition is_digit (c : ascii) : bool :=
  (48 <=? nat_of_ascii c)%nat && (nat_of_ascii c <=? 57)%nat.

(** [str.isdigit()] on a text of ASCII characters: non-empty and all
    decimal digits.  The builtin also accepts digit characters outside
    ASCII; see [Builtins] below. *)
Definition isdigit (s : string) : bool :=
  match s with
  | EmptyString => false
  | _ => forallb is_digit (list_ascii_of_string s)
  end.

(** [s[:-1]] *)
Definition drop_last_char (s : string) : string :=
  string_of_list_ascii (removelast (list_ascii_of_string s)).

(** The characters [int] skips around the digits of an ASCII text: tab,
    line feed, vertical tab, form feed, carriage return and space. *)
Definition is_space (c : ascii) : bool :=
  let n := nat_of_ascii c in
  ((9 <=? n)%nat && (n <=? 13)%nat) || (n =? 32)%nat.

(** The digit part of an integer literal: decimal digits, single
    underscores allowed between two digits. *)
Fixpoint int_digits (acc : Z) (after_digit : bool) (s : list ascii) : option Z :=
  match s with
  | [] => if after_digit then Some acc else None
  | c :: s' =>
      if is_digit c
      then int_digits (10 * acc + (Z.of_nat (nat_of_ascii c) - 48)) true s'
      else if bool_decide (c = "_"%char) && after_digit
           then int_digits acc false s'
           else None
  end.

Fixpoint lstrip (s : list ascii) : list ascii :=
  match s with
  | c :: s' => if is_space c then lstrip s' else s
  | [] => []
  end.

(** The interpreter's default limit on the digits of a decimal text. *)
Definition INT_MAX_STR_DIGITS : nat := 4300.

(** [int(s)] in base 10 on a text of ASCII characters: surrounding
    whitespace is dropped, an optional sign, then the digits, at most
    [INT_MAX_STR_DIGITS] of them; anything else is a [ValueError]. *)
Definition py_int (s : string) : result Z :=
  let body := rev (lstrip (rev (lstrip (list_ascii_of_string s)))) in
  let parsed :=
    match body with
    | "-"%char :: d => Z.opp <$> int_digits 0 false d
    | "+"%char :: d => int_digits 0 false d
    | d => int_digits 0 false d
    end in
  match parsed with
  | Some n =>
      if (INT_MAX_STR_DIGITS <? length (List.filter is_digit body))%nat
      then Raise ValueError
      else Ok n
  | None => Raise ValueError
  end.

(** The two builtins the event handler applies to text, [int(text)] and
    [text.isdigit()].  They belong to the interpreter, not to the program,
    and work on all of Unicode; the handler is therefore embedded over any
    pair of them.  [ascii_builtins] is the pair above, which agrees with the
    interpreter on the texts the concrete runs below use. *)
Record Builtins : Type := mkBuiltins {
  builtin_int : string -> result Z;
  builtin_isdigit : string -> bool
}.

Definition ascii_builtins : Builtins := mkBuiltins py_int isdigit.

(** ** matchcontroller.py *)

Module MatchController.

(** The attributes of the controller that the simulation reads or writes,
    and the world the object runs in. *)
Record t : Type := mk {
  isActive : bool;
  isInPlay : bool;
  isPaused : bool;
  isOver : bool;
  scoresReady : bool;
  combatant1 : Reptile.t;
  combatant2 : Reptile.t;
  restorativeOrbs : list VitalityOrb.t;
  lastOrbRegen : Q;
  nourishment : Point;
  controls : gmap string Rect;
  totalRounds : Z;
  currentBattle : Z;
  isAcceptingInput : bool;
  enteredText : string;
  battleScores : gmap string (list Z);
  world : World
}.

Definition set_isActive (v : bool) (s : t) : t :=
  mk v (isInPlay s) (isPaused s) (isOver s) (scoresReady s) (combatant1 s)
     (combatant2 s) (restorativeOrbs s) (lastOrbRegen s) (nourishment s)
     (controls s) (totalRounds s) (currentBattle s) (isAcceptingInput s)
     (enteredText s) (battleScores s) (world s).
Definition set_isInPlay (v : bool) (s : t) : t :=
  mk (isActive s) v (isPaused s) (isOver s) (scoresReady s) (combatant1 s)
     (combatant2 s) (restorativeOrbs s) (lastOrbRegen s) (nourishment s)
     (controls s) (totalRounds s) (currentBattle s) (isAcceptingInput s)
     (enteredText s) (battleScores s) (world s).
Definition set_isOver (v : bool) (s : t) : t :=
  mk (isActive s) (isInPlay s) (isPaused s) v (scoresReady s) (combatant1 s)
     (combatant2 s) (restorativeOrbs s) (lastOrbRegen s) (nourishment s)
     (controls s) (totalRounds s) (currentBattle s) (isAcceptingInput s)
     (enteredText s) (battleScores s) (world s).
Definition set_combatant1 (v : Reptile.t) (s : t) : t :=
  mk (isActive s) (isInPlay s) (isPaused s) (isOver s) (scoresReady s) v
     (combatant2 s) (restorativeOrbs s) (lastOrbRegen s) (nourishment s)
     (controls s) (totalRounds s) (currentBattle s) (isAcceptingInput s)
     (enteredText s) (battleScores s) (world s).
Definition set_combatant2 (v : Reptile.t) (s : t) : t :=
  mk (isActive s) (isInPlay s) (isPaused s) (isOver s) (scoresReady s)
     (combatant1 s) v (restorativeOrbs s) (lastOrbRegen s) (nourishment s)
     (controls s) (totalRounds s) (currentBattle s) (isAcceptingInput s)
     (enteredText s) (battleScores s) (world s).
Definition set_restorativeOrbs (v : list VitalityOrb.t) (s : t) : t :=
  mk (isActive s) (isInPlay s) (isPaused s) (isOver s) (scoresReady s)
     (combatant1 s) (combatant2 s) v (lastOrbRegen s) (nourishment s)
     (controls s) (totalRounds s) (currentBattle s) (isAcceptingInput s)
     (enteredText s) (battleScores s) (world s).
Definition set_lastOrbRegen (v : Q) (s : t) : t :=
  mk (isActive s) (isInPlay s) (isPaused s) (isOver s) (scoresReady s)
     (combatant1 s) (combatant2 s) (restorativeOrbs s) v (nourishment s)
     (controls s) (totalRounds s) (currentBattle s) (isAcceptingInput s)
     (enteredText s) (battleScores s) (world s).
Definition set_nourishment (v : Point) (s : t) : t :=
  mk (isActive s) (isInPlay s) (isPaused s) (isOver s) (scoresReady s)
     (combatant1 s) (combatant2 s) (restorativeOrbs s) (lastOrbRegen s) v
     (controls s) (totalRounds s) (currentBattle s) (isAcceptingInput s)
     (enteredText s) (battleScores s) (world s).
Definition set_controls (v : gmap string Rect) (s : t) : t :=
  mk (isActive s) (isInPlay s) (isPaused s) (isOver s) (scoresReady s)
     (combatant1 s) (combatant2 s) (restorativeOrbs s) (lastOrbRegen s)
     (nourishment s) v (totalRounds s) (currentBattle s) (isAcceptingInput
     s) (enteredText s) (battleScores s) (world s).
Definition set_totalRounds (v : Z) (s : t) : t :=
  mk (isActive s) (isInPlay s) (isPaused s) (isOver s) (scoresReady s)
     (combatant1 s) (combatant2 s) (restorativeOrbs s) (lastOrbRegen s)
     (nourishment s) (controls s) v (currentBattle s) (isAcceptingInput s)
     (enteredText s) (battleScores s) (world s).
Definition set_currentBattle (v : Z) (s : t) : t :=
  mk (isActive s) (isInPlay s) (isPaused s) (isOver s) (scoresReady s)
     (combatant1 s) (combatant2 s) (restorativeOrbs s) (lastOrbRegen s)
     (nourishment s) (controls s) (totalRounds s) v (isAcceptingInput s)
     (enteredText s) (battleScores s) (world s).
Definition set_isAcceptingInput (v : bool) (s : t) : t :=
  mk (isActive s) (isInPlay s) (isPaused s) (isOver s) (scoresReady s)
     (combatant1 s) (combatant2 s) (restorativeOrbs s) (lastOrbRegen s)
     (nourishment s) (controls s) (totalRounds s) (currentBattle s) v
     (enteredText s) (battleScores s) (world s).
Definition set_enteredText (v : string) (s : t) : t :=
  mk (isActive s) (isInPlay s) (isPaused s) (isOver s) (scoresReady s)
     (combatant1 s) (combatant2 s) (restorativeOrbs s) (lastOrbRegen s)
     (nourishment s) (controls s) (totalRounds s) (currentBattle s)
     (isAcceptingInput s) v (battleScores s) (world s).
Definition set_battleScores (v : gmap string (list Z)) (s : t) : t :=
  mk (isActive s) (isInPlay s) (isPaused s) (isOver s) (scoresReady s)
     (combatant1 s) (combatant2 s) (restorativeOrbs s) (lastOrbRegen s)
     (nourishment s) (controls s) (totalRounds s) (currentBattle s)
     (isAcceptingInput s) (enteredText s) v (world s).
Definition set_world (v : World) (s : t) : t :=
  mk (isActive s) (isInPlay s) (isPaused s) (isOver s) (scoresReady s)
     (combatant1 s) (combatant2 s) (restorativeOrbs s) (lastOrbRegen s)
     (nourishment s) (controls s) (totalRounds s) (currentBattle s)
     (isAcceptingInput s) (enteredText s) (battleScores s) v.

(** An attribute assignment on one of the two reptiles. *)
Definition on_combatant1 (f : Reptile.t -> Reptile.t) (s : t) : t :=
  set_combatant1 (f (combatant1 s)) s.
Definition on_combatant2 (f : Reptile.t -> Reptile.t) (s : t) : t :=
  set_combatant2 (f (combatant2 s)) s.

(** Spawn cells: [{'x': 5, 'y': DISPLAY_HEIGHT // REPTILE_DIMENSION // 2}] and
    [{'x': DISPLAY_WIDTH // REPTILE_DIMENSION - 5, 'y': ... // 2}]. *)
Definition SPAWN1 : Point := mkPoint 5 (DISPLAY_HEIGHT / REPTILE_DIMENSION / 2).
Definition SPAWN2 : Point :=
  mkPoint (DISPLAY_WIDTH / REPTILE_DIMENSION - 5)
          (DISPLAY_HEIGHT / REPTILE_DIMENSION / 2).

(** [generate_nourishment]: the dict literal draws ['x'] first. *)
Definition generate_nourishment (w : World) : Point * World :=
  let '(fx, w) := randint 0 (DISPLAY_WIDTH / REPTILE_DIMENSION - 1) w in
  let '(fy, w) := randint 0 (DISPLAY_HEIGHT / REPTILE_DIMENSION - 1) w in
  (mkPoint fx fy, w).

(** [__init__], without the pygame set-up. *)
Definition init (w : World) : t :=
  let '(now, w) := time_time w in
  let '(food, w) := generate_nourishment w in
  mk true false false false false
     (Reptile.init SPAWN1 MOVE_RIGHT COLOR_YELLOW)
     (Reptile.init SPAWN2 MOVE_LEFT COLOR_ORANGE)
     [] now food ∅ 0 1 false EmptyString
     {[ "Combatant 1" := []; "Combatant 2" := [] ]} w.

(** [replenish_vitality_orbs].  Clock readings are rationals and the test
    of line 148 is exact; the interpreter makes it on doubles, so the two can
    part when the gap lies within a rounding error of the respawn time.  The
    concrete runs below use readings that doubles hold exactly. *)
Definition replenish_vitality_orbs (s : t) : t :=
  let '(currentTime, w) := time_time (world s) in
  let s := set_world w s in
  if Qle_bool ORB_RESPAWN_TIME (currentTime - lastOrbRegen s)
  then
    let '(orb, w) := VitalityOrb.init (world s) in
    let s := set_world w s in
    let s := set_restorativeOrbs (restorativeOrbs s ++ [orb]) s in
    set_lastOrbRegen currentTime s
  else s.

(** [initialize_next_battle] *)
Definition initialize_next_battle (s : t) : t :=
  let s := set_combatant1 (Reptile.init SPAWN1 MOVE_RIGHT COLOR_YELLOW) s in
  let s := on_combatant1 (Reptile.set_vitality 100) s in
  let s := set_combatant2 (Reptile.init SPAWN2 MOVE_LEFT COLOR_ORANGE) s in
  let s := on_combatant2 (Reptile.set_vitality 100) s in
  let '(food, w) := generate_nourishment (world s) in
  let s := set_nourishment food (set_world w s) in
  let s := set_restorativeOrbs [] s in
  let '(now, w) := time_time (world s) in
  set_lastOrbRegen now (set_world w s).

(** *** Calls through [self] to methods that are not among the source files

    [advance_game] calls [self.archive_scores()] and [manage_interactions]
    calls [self.restart_battle()]; neither method is in the files at hand.
    Python resolves the name in the object's namespace when the call runs
    and raises [AttributeError] when it is not bound.  [Namespace] holds
    what is bound besides the methods embedded in this module, so that each
    statement says what it needs of the two. *)
Definition Method : Type := t -> result t.
Abbreviation Namespace := (gmap string Method).

Definition call_method (ns : Namespace) (name : string) (s : t) : result t :=
  match ns !! name with
  | Some f => f s
  | None => Raise (AttributeError name)
  end.

(** The two tests of one axis in the edge check of [advance_game]. *)
Inductive EdgeBranch : Type := AtOrBelowZero | AtOrBeyondLimit | Inside.

Definition edge_branch (c limit : Z) : EdgeBranch :=
  if c <=? 0 then AtOrBelowZero
  else if limit <=? c then AtOrBeyondLimit
  else Inside.

Definition edge_penalty (b : EdgeBranch) (v : Z) : Z :=
  match b with
  | AtOrBelowZero => v - 5
  | AtOrBeyondLimit => v - 5
  | Inside => v
  end.

(** Lines 240-247 (and 249-256): the edge check of one combatant. *)
Definition check_edges (r : Reptile.t) : result Reptile.t :=
  head <- getitem0 (Reptile.segments r) ;;
  let r := Reptile.set_vitality
             (edge_penalty (edge_branch (px head) (DISPLAY_WIDTH / REPTILE_DIMENSION))
                           (Reptile.vitality r)) r in
  head <- getitem0 (Reptile.segments r) ;;
  Ok (Reptile.set_vitality
        (edge_penalty (edge_branch (py head) (DISPLAY_HEIGHT / REPTILE_DIMENSION))
                      (Reptile.vitality r)) r).

(** Lines 235-256: orb timer, both moves, both edge checks. *)
Definition move_and_check_edges (s : t) : result t :=
  let s := replenish_vitality_orbs s in
  c1 <- Reptile.move (combatant1 s) ;;
  let s := set_combatant1 c1 s in
  c2 <- Reptile.move (combatant2 s) ;;
  let s := set_combatant2 c2 s in
  c1 <- check_edges (combatant1 s) ;;
  let s := set_combatant1 c1 s in
  c2 <- check_edges (combatant2 s) ;;
  Ok (set_combatant2 c2 s).

(** The condition of line 259. *)
Definition battle_ends (s : t) : bool :=
  (Reptile.vitality (combatant1 s) <=? 0) || (Reptile.vitality (combatant2 s) <=? 0).

(** Lines 258-265. *)
Definition end_battle (ns : Namespace) (s : t) : result t :=
  if battle_ends s then
    s <- call_method ns "archive_scores" s ;;
    if currentBattle s <? totalRounds s then
      let s := set_currentBattle (currentBattle s + 1) s in
      Ok (initialize_next_battle s)
    else Ok (set_isOver true s)
  else Ok s.

(** The body of the loop of lines 268-274 for one orb. *)
Definition consume_orb (s : t) (orb : VitalityOrb.t) : result t :=
  hit1 <- Reptile.detect_collision (combatant1 s) (VitalityOrb.coordinates orb) ;;
  if hit1 : bool then
    orbs <- list_remove orb (restorativeOrbs s) ;;
    let s := set_restorativeOrbs orbs s in
    Ok (on_combatant1
          (fun r => Reptile.set_vitality (Z.min (Reptile.vitality r + 30) 100) r) s)
  else
    hit2 <- Reptile.detect_collision (combatant2 s) (VitalityOrb.coordinates orb) ;;
    if hit2 : bool then
      orbs <- list_remove orb (restorativeOrbs s) ;;
      let s := set_restorativeOrbs orbs s in
      Ok (on_combatant2
            (fun r => Reptile.set_vitality (Z.min (Reptile.vitality r + 30) 100) r) s)
    else Ok s.

Fixpoint for_each (body : t -> VitalityOrb.t -> result t)
  (l : list VitalityOrb.t) (s : t) : result t :=
  match l with
  | [] => Ok s
  | orb :: l' => s <- body s orb ;; for_each body l' s
  end.

(** Lines 268-274: the loop runs over a copy of the list taken at its start. *)
Definition consume_orbs (s : t) : result t :=
  for_each consume_orb (restorativeOrbs s) s.

(** Lines 277-280. *)
Definition combatant_collisions (s : t) : result t :=
  head1 <- getitem0 (Reptile.segments (combatant1 s)) ;;
  let s :=
    if bool_decide (head1 ∈ Reptile.segments (combatant2 s))
    then on_combatant1 (fun r => Reptile.set_vitality (Reptile.vitality r - 5) r) s
    else s in
  head2 <- getitem0 (Reptile.segments (combatant2 s)) ;;
  Ok (if bool_decide (head2 ∈ Reptile.segments (combatant1 s))
      then on_combatant2 (fun r => Reptile.set_vitality (Reptile.vitality r - 5) r) s
      else s).

(** Lines 282-285 and 287-290 for one combatant. *)
Definition eat1 (s : t) : result t :=
  hit <- Reptile.detect_collision (combatant1 s) (nourishment s) ;;
  if hit : bool then
    let '(food, w) := generate_nourishment (world s) in
    let s := set_nourishment food (set_world w s) in
    let s := on_combatant1 (fun r => Reptile.set_tally (Reptile.tally r + 5) r) s in
    c1 <- Reptile.expand (combatant1 s) ;;
    Ok (set_combatant1 c1 s)
  else Ok s.

Definition eat2 (s : t) : result t :=
  hit <- Reptile.detect_collision (combatant2 s) (nourishment s) ;;
  if hit : bool then
    let '(food, w) := generate_nourishment (world s) in
    let s := set_nourishment food (set_world w s) in
    let s := on_combatant2 (fun r => Reptile.set_tally (Reptile.tally r + 5) r) s in
    c2 <- Reptile.expand (combatant2 s) ;;
    Ok (set_combatant2 c2 s)
  else Ok s.

(** Lines 267-290: the interaction checks after the battle-end test. *)
Definition interaction_checks (s : t) : result t :=
  s <- consume_orbs s ;;
  s <- combatant_collisions s ;;
  s <- eat1 s ;;
  eat2 s.

(** [advance_game] *)
Definition advance_game (ns : Namespace) (s : t) : result t :=
  s <- move_and_check_edges s ;;
  s <- end_battle ns s ;;
  interaction_checks s.

(** [self.controls.get(name) and self.controls[name].collidepoint(pos)] *)
Definition clicked (name : string) (pos : Z * Z) (s : t) : bool :=
  match controls s !! name with
  | Some r => Rect_truthy r && collidepoint r pos
  | None => false
  end.

(** Lines 206-213: the key chain of combatant 1. *)
Definition steer1 (key : Key) (r : Reptile.t) : Reptile.t :=
  if bool_decide (key = K_w) && bool_decide (Reptile.move_direction r ≠ MOVE_DOWN)
  then Reptile.set_move_direction MOVE_UP r
  else if bool_decide (key = K_a) && bool_decide (Reptile.move_direction r ≠ MOVE_RIGHT)
  then Reptile.set_move_direction MOVE_LEFT r
  else if bool_decide (key = K_s) && bool_decide (Reptile.move_direction r ≠ MOVE_UP)
  then Reptile.set_move_direction MOVE_DOWN r
  else if bool_decide (key = K_d) && bool_decide (Reptile.move_direction r ≠ MOVE_LEFT)
  then Reptile.set_move_direction MOVE_RIGHT r
  else r.

(** Lines 215-222: the key chain of combatant 2. *)
Definition steer2 (key : Key) (r : Reptile.t) : Reptile.t :=
  if bool_decide (key = K_UP) && bool_decide (Reptile.move_direction r ≠ MOVE_DOWN)
  then Reptile.set_move_direction MOVE_UP r
  else if bool_decide (key = K_LEFT) && bool_decide (Reptile.move_direction r ≠ MOVE_RIGHT)
  then Reptile.set_move_direction MOVE_LEFT r
  else if bool_decide (key = K_DOWN) && bool_decide (Reptile.move_direction r ≠ MOVE_UP)
  then Reptile.set_move_direction MOVE_DOWN r
  else if bool_decide (key = K_RIGHT) && bool_decide (Reptile.move_direction r ≠ MOVE_LEFT)
  then Reptile.set_move_direction MOVE_RIGHT r
  else r.

(** Lines 172-181: the [try] block of the confirm button.  [print] calls are
    left out.  Only [ValueError] is caught. *)
Definition confirm_rounds_with (py : Builtins) (s : t) : result t :=
  match builtin_int py (enteredText s) with
  | Ok n =>
      let s := set_totalRounds n s in
      let s := set_enteredText EmptyString s in
      let s := set_isAcceptingInput false s in
      Ok (set_isInPlay true s)
  | Raise ValueError => Ok (set_enteredText EmptyString s)
  | Raise e => Raise e
  end.

(** The body of the loop of [manage_interactions] for one event. *)
Definition handle_event_with (py : Builtins) (ns : Namespace) (s : t) (e : Event)
  : result t :=
  match e with
  | QUIT => Ok (set_isActive false s)
  | MOUSEBUTTONDOWN pos =>
      if isAcceptingInput s then
        if clicked "confirm" pos s then confirm_rounds_with py s else Ok s
      else if clicked "initiate" pos s then
        Ok (set_isInPlay false (set_isAcceptingInput true s))
      else if isOver s then
        if clicked "replay" pos s then call_method ns "restart_battle" s
        else if clicked "end" pos s then Ok (set_isActive false s)
        else Ok s
      else
        if negb (isInPlay s) && negb (isAcceptingInput s) then
          if clicked "initiate" pos s then Ok (set_isAcceptingInput true s)
          else if clicked "end" pos s then Ok (set_isActive false s)
          else Ok s
        else Ok s
  | KEYDOWN key unicode =>
      if isAcceptingInput s then
        if bool_decide (key = K_BACKSPACE)
        then Ok (set_enteredText (drop_last_char (enteredText s)) s)
        else if builtin_isdigit py unicode
        then Ok (set_enteredText (enteredText s +:+ unicode) s)
        else Ok s
      else if isInPlay s && negb (isPaused s) then
        Ok (on_combatant2 (steer2 key) (on_combatant1 (steer1 key) s))
      else Ok s
  | OtherEvent => Ok s
  end.

(** [manage_interactions]; [events] is what [pygame.event.get()] returns. *)
Fixpoint manage_interactions_with (py : Builtins) (ns : Namespace)
  (events : list Event) (s : t) : result t :=
  match events with
  | [] => Ok s
  | e :: events' =>
      s <- handle_event_with py ns s e ;; manage_interactions_with py ns events' s
  end.

(** The handler on ASCII text. *)
Definition confirm_rounds : t -> result t := confirm_rounds_with ascii_builtins.

Definition handle_event : Namespace -> t -> Event -> result t :=
  handle_event_with ascii_builtins.

Definition manage_interactions : Namespace -> list Event -> t -> result t :=
  manage_interactions_with ascii_builtins.

(** Modelled from the spec: the effect of [archive_scores], which
    [advance_game] calls at line 260 and no file of the repository defines.  Spec 4.3: "archive both
    creatures' scores for the current battle"; spec 3: the score history is a
    "per-creature ordered list of per-battle scores". *)
Definition archived (s : t) : t :=
  set_battleScores
    (alter (fun l => l ++ [Reptile.tally (combatant2 s)]) "Combatant 2"
       (alter (fun l => l ++ [Reptile.tally (combatant1 s)]) "Combatant 1"
          (battleScores s))) s.

(** Modelled from the spec: the absent method itself; per the spec it only
    archives the two scores and always completes. *)
Definition archive_scores (s : t) : result t := Ok (archived s).

(** Modelled from the spec: [restart_battle], which [manage_interactions]
    calls at line 188 and no file at hand defines.  Spec 4.3:
    "SESSION_OVER --replay_pressed--> CONFIGURING_ROUNDS equivalent reset
    (clears score history, reinitializes): restart full session".  The score
    history is emptied, the battle is set up anew as for a next battle, the
    battle index starts again at 1 and the round prompt is open. *)
Definition restart_battle (s : t) : result t :=
  let s := set_battleScores {[ "Combatant 1" := []; "Combatant 2" := [] ]} s in
  let s := initialize_next_battle (set_currentBattle 1 s) in
  let s := set_isOver false s in
  Ok (set_isInPlay false (set_isAcceptingInput true s)).

(** No method supplied beyond those embedded above; used where a statement
    does not depend on the two absent ones. *)
Definition written_class : Namespace := ∅.

(** [archive_scores] supplied from the spec. *)
Definition completed_class : Namespace := {[ "archive_scores" := archive_scores ]}.

(** Both absent methods supplied from the spec. *)
Definition session_class : Namespace :=
  <[ "restart_battle" := restart_battle ]> completed_class.

(** Whether the tick that starts in [s] reaches the battle-end branch. *)
Definition tick_ends_battle (s : t) : bool :=
  match move_and_check_edges s with
  | Ok s1 => battle_ends s1
  | Raise _ => false
  end.

(** [n] successive calls of [advance_game], with the number of them that
    reached the battle-end branch. *)
Fixpoint run (ns : Namespace) (n : nat) (s : t) : result (t * nat) :=
  match n with
  | O => Ok (s, O)
  | S n' =>
      s' <- advance_game ns s ;;
      r <- run ns n' s' ;;
      Ok (fst r, ((if tick_ends_battle s then 1 else 0) + snd r)%nat)
  end.

(** [render_reptile]: the rectangles handed to [pygame.draw.rect], one per
    segment, in the order of the loop. *)
Definition render_reptile (reptile : Reptile.t) : list (Color * Rect) :=
  map (fun segment =>
         (Reptile.tint reptile,
          mkRect (px segment * REPTILE_DIMENSION) (py segment * REPTILE_DIMENSION)
                 REPTILE_DIMENSION REPTILE_DIMENSION))
      (Reptile.segments reptile).

(** [execute], the loop that calls [manage_interactions] and [advance_game],
    is not in the repository.  A script lists the calls in the order they
    are made: a batch of events handed to [manage_interactions], or a number
    of ticks. *)
Inductive Step : Type :=
  | Keys (events : list Event)
  | Ticks (n : nat).

Fixpoint play_with (py : Builtins) (ns : Namespace) (script : list Step) (s : t)
  : result t :=
  match script with
  | [] => Ok s
  | Keys events :: rest =>
      s <- manage_interactions_with py ns events s ;; play_with py ns rest s
  | Ticks n :: rest => r <- run ns n s ;; play_with py ns rest (fst r)
  end.

Definition play : Namespace -> list Step -> t -> result t :=
  play_with ascii_builtins.

End MatchController.

Import MatchController.

(** ** Views of the controller used in the statements *)

(** The attributes that say where the session stands. *)
Definition session (s : MatchController.t) :=
  (MatchController.isActive s, MatchController.isInPlay s,
   MatchController.isPaused s, MatchController.isOver s,
   MatchController.scoresReady s, MatchController.totalRounds s,
   MatchController.currentBattle s, MatchController.isAcceptingInput s,
   MatchController.enteredText s, MatchController.battleScores s,
   MatchController.controls s).

(** Whatever [self.archive_scores] resolves to behaves as the spec words
    it; a namespace in which the name is unbound satisfies this. *)
Definition archive_as_specified (ns : Namespace) : Prop :=
  forall f, ns !! "archive_scores" = Some f -> forall s, f s = archive_scores s.

(** The state lines 258-265 leave, once the scores are archived. *)
Definition after_battle_end (s : t) : t :=
  if battle_ends s then
    if currentBattle s <? totalRounds s
    then initialize_next_battle (set_currentBattle (currentBattle s + 1) (archived s))
    else set_isOver true (archived s)
  else s.

(** What one orb does to a health value (lines 271 and 274). *)
Definition heal (v : Z) : Z := Z.min (v + 30) 100.

Fixpoint heal_times (n : nat) (v : Z) : Z :=
  match n with
  | O => v
  | S n' => heal_times n' (heal v)
  end.

(** The orbs of [l] lying on cell [h], and those lying on neither [h1] nor
    [h2]. *)
Definition orbs_at (h : Point) (l : list VitalityOrb.t) : list VitalityOrb.t :=
  filter (fun o => VitalityOrb.coordinates o = h) l.

Definition orbs_off (h1 h2 : Point) (l : list VitalityOrb.t) : list VitalityOrb.t :=
  filter (fun o => VitalityOrb.coordinates o <> h1 /\ VitalityOrb.coordinates o <> h2) l.

(** The state the orb loop leaves when it runs over [l] from [s], the orbs
    in front of [l] being [pre]. *)
Definition after_orbs (h1 h2 : Point) (pre l : list VitalityOrb.t) (s : t) : t :=
  set_combatant2
    (Reptile.set_vitality
       (heal_times (length (orbs_at h2 (filter (fun o => VitalityOrb.coordinates o <> h1) l)))
                   (Reptile.vitality (combatant2 s)))
       (combatant2 s))
    (set_combatant1
       (Reptile.set_vitality
          (heal_times (length (orbs_at h1 l)) (Reptile.vitality (combatant1 s)))
          (combatant1 s))
       (set_restorativeOrbs (pre ++ orbs_off h1 h2 l) s)).

(** A cell of the grid. *)
Definition in_grid (c : Point) : Prop :=
  (0 <= px c < GRID_W) /\ (0 <= py c < GRID_H).

(** Everything that has a position lies in the grid. *)
Definition arena_in_grid (s : t) : Prop :=
  Forall in_grid (Reptile.segments (combatant1 s)) /\
  Forall in_grid (Reptile.segments (combatant2 s)) /\
  in_grid (nourishment s) /\
  Forall (fun o => in_grid (VitalityOrb.coordinates o)) (restorativeOrbs s).

(** The orbs on the field are distinct objects, all created by the world's
    allocator. *)
Definition orbs_distinct (s : t) : Prop :=
  NoDup (VitalityOrb.ident <$> restorativeOrbs s) /\
  Forall (fun o => (VitalityOrb.ident o < allocs (world s))%nat) (restorativeOrbs s).

(** One of the four motion directions. *)
Definition unit_direction (d : Point) : Prop :=
  d ∈ [MOVE_RIGHT; MOVE_LEFT; MOVE_DOWN; MOVE_UP].

(** The tally is 5 per segment gained. *)
Definition score_matches_length (r : Reptile.t) : Prop :=
  Reptile.tally r = 5 * (Z.of_nat (length (Reptile.segments r)) - 1).

(** A rectangle lies on the canvas. *)
Definition on_canvas (r : Rect) : Prop :=
  0 <= rect_left r /\ rect_left r + rect_width r <= DISPLAY_WIDTH /\
  0 <= rect_top r /\ rect_top r + rect_height r <= DISPLAY_HEIGHT.

(** Both reptiles have a head. *)
Definition bodies_non_empty (s : t) : Prop :=
  (exists h tl, Reptile.segments (combatant1 s) = h :: tl) /\
  (exists h tl, Reptile.segments (combatant2 s) = h :: tl).

(** ** Concrete configurations used to exercise the statements *)

(** A world whose random source always yields 7 (food and orbs land on
    cell (7,7)) and whose clock stands still (the orb timer never fires). *)
Definition still_world : World := mkWorld (fun _ => 7) 0 (fun _ => 0%Q) 0 0.

(** A two-segment reptile on the right edge, heading right. *)
Definition edge_runner : Reptile.t :=
  Reptile.mk [mkPoint 59 3; mkPoint 58 3] MOVE_RIGHT COLOR_YELLOW 100 0.

(** The buttons as [display] places them, 100 by 50 pixels each. *)
Definition buttons : gmap string Rect :=
  {[ "confirm" := mkRect 550 500 100 50;
     "initiate" := mkRect 550 275 100 50;
     "replay" := mkRect 550 350 100 50;
     "end" := mkRect 550 425 100 50 ]}.

(** A session of three battles in play, both reptiles on their spawn cells. *)
Definition playing : t :=
  mk true true false false false
     (Reptile.init SPAWN1 MOVE_RIGHT COLOR_YELLOW)
     (Reptile.init SPAWN2 MOVE_LEFT COLOR_ORANGE)
     [] 0%Q (mkPoint 7 7) buttons 3 1 false EmptyString
     {[ "Combatant 1" := []; "Combatant 2" := [] ]} still_world.

(** Reptile 1 with 5 health left, one step away from the corner (0,0). *)
Definition cornered : Reptile.t :=
  Reptile.mk [mkPoint 1 0] MOVE_LEFT COLOR_YELLOW 5 0.

(** Reptile 1 with 10 health left, about to step on cell (10,10), where two
    orbs lie. *)
Definition two_orbs : t :=
  set_restorativeOrbs
    [VitalityOrb.mk 0 (mkPoint 10 10); VitalityOrb.mk 1 (mkPoint 10 10)]
    (set_combatant1 (Reptile.mk [mkPoint 9 10] MOVE_RIGHT COLOR_YELLOW 10 0) playing).

(** Key presses and ticks that take reptile 1 from its spawn cell to
    [cornered]: 14 cells right, 22 up to row 0, then 18 left along row 0
    at 5 health per tick. *)
Definition to_the_corner : list Step :=
  [Ticks 14; Keys [KEYDOWN K_w "w"]; Ticks 22; Keys [KEYDOWN K_a "a"]; Ticks 18].

(** A world whose clock advances 10 seconds per reading (an orb every
    second tick) and whose random source keeps changing. *)
Definition busy_world : World :=
  mkWorld (fun n => 7 * Z.of_nat n) 0 (fun n => inject_Z (10 * Z.of_nat n)) 0 0.

(** Battle 1 of 3, reptile 1 about to step onto the corner with 5 health. *)
Definition last_stand : t := set_combatant1 cornered playing.

(** The food lies on the cell reptile 1 enters next. *)
Definition feeding : t := set_nourishment (mkPoint 6 22) playing.

(** The only battle of a session: reptile 1 about to step onto the corner
    with 5 health, the food and one orb lying on the corner. *)
Definition final_corner : t :=
  set_totalRounds 1
    (set_nourishment (mkPoint 0 0)
       (set_restorativeOrbs [VitalityOrb.mk 0 (mkPoint 0 0)] last_stand)).

(** The round-count prompt with [text] typed so far. *)
Definition configuring (text : string) : t :=
  set_enteredText text (set_isAcceptingInput true (set_isInPlay false playing)).

(** The session-over screen. *)
Definition session_over : t := set_isOver true playing.

(** The direction opposite to [d]. *)
Definition opposite (d : Point) : Point := mkPoint (- px d) (- py d).


(** * Properties *)

Lemma bind_ok {A B : Type} (m : result A) (k : A -> result B) (b : B) :
  bind m k = Ok b -> exists a, m = Ok a /\ k a = Ok b.
Proof. destruct m as [a|e]; simpl; [eauto | discriminate]. Qed.

Ltac inv_bind H :=
  let a := fresh "a" in
  let Ha := fresh "H" a in
  apply bind_ok in H as (a & Ha & H).

Lemma getitem0_ok {A : Type} (l : list A) (a : A) :
  getitem0 l = Ok a <-> exists l', l = a :: l'.
Proof.
  destruct l as [|b l]; simpl; split.
  - discriminate.
  - intros (l' & Hl); discriminate.
  - intros [= ->]; eauto.
  - intros (l' & [= -> _]); reflexivity.
Qed.

Lemma removelast_lookup {A : Type} (l : list A) (i : nat) :
  (S i < length l)%nat -> removelast l !! i = l !! i.
Proof.
  intros Hi. rewrite removelast_firstn_len.
  apply lookup_take_lt. lia.
Qed.

Lemma length_removelast_cons {A : Type} (a : A) (l : list A) :
  length (removelast (a :: l)) = length l.
Proof.
  rewrite removelast_firstn_len, length_take. simpl. lia.
Qed.

Lemma move_ok (r : Reptile.t) (head : Point) (rest : list Point) :
  Reptile.segments r = head :: rest ->
  Reptile.move r =
    Ok (Reptile.set_segments
          (Reptile.new_head head (Reptile.move_direction r) :: removelast (head :: rest)) r).
Proof. intros Hs. unfold Reptile.move. rewrite Hs. reflexivity. Qed.

Lemma move_inv (r r' : Reptile.t) :
  Reptile.move r = Ok r' ->
  exists head rest,
    Reptile.segments r = head :: rest /\
    r' = Reptile.set_segments
           (Reptile.new_head head (Reptile.move_direction r) :: removelast (head :: rest)) r.
Proof.
  intros H. destruct (Reptile.segments r) as [|head rest] eqn:Hs.
  - unfold Reptile.move in H. rewrite Hs in H. discriminate.
  - exists head, rest. split; [reflexivity|].
    rewrite (move_ok r head rest Hs) in H. congruence.
Qed.

(** ** Movement *)

(** C1: for a reptile with a non-empty body and one of the four unit
    directions, [move] succeeds; the new head is the old head plus the
    direction, componentwise modulo 60 and 45; it is put in front and the last
    segment is dropped, so the length is unchanged and every other segment
    keeps its value, one position further back. *)
Theorem move_wraps_and_shifts (r : Reptile.t) (head : Point) (rest : list Point) :
  Reptile.segments r = head :: rest ->
  Reptile.move_direction r ∈ [MOVE_RIGHT; MOVE_LEFT; MOVE_DOWN; MOVE_UP] ->
  exists r',
    Reptile.move r = Ok r' /\
    Reptile.segments r' =
      mkPoint ((px head + px (Reptile.move_direction r)) mod (1200 / 20))
              ((py head + py (Reptile.move_direction r)) mod (900 / 20))
      :: removelast (head :: rest) /\
    length (Reptile.segments r') = length (Reptile.segments r) /\
    (forall i : nat, (S i < length (Reptile.segments r))%nat ->
       Reptile.segments r' !! S i = Reptile.segments r !! i) /\
    Reptile.move_direction r' = Reptile.move_direction r /\
    Reptile.vitality r' = Reptile.vitality r /\
    Reptile.tally r' = Reptile.tally r.
Proof.
  intros Hs _.
  eexists. split; [apply (move_ok r head rest Hs)|].
  cbn [Reptile.segments Reptile.set_segments Reptile.move_direction
       Reptile.vitality Reptile.tally].
  rewrite Hs.
  split; [reflexivity|].
  split; [cbn [length]; f_equal; apply length_removelast_cons|].
  split; [|auto].
  intros i Hi. change (removelast (head :: rest) !! i = (head :: rest) !! i).
  apply removelast_lookup. exact Hi.
Qed.

Lemma move_wraps_and_shifts_witness :
  exists r',
    Reptile.move edge_runner = Ok r' /\
    Reptile.segments r' = [mkPoint 0 3; mkPoint 59 3] /\
    length (Reptile.segments r') = 2%nat.
Proof.
  destruct (move_wraps_and_shifts edge_runner (mkPoint 59 3) [mkPoint 58 3])
    as (r' & Hm & Hseg & Hlen & _).
  - reflexivity.
  - constructor.
  - exists r'. split; [exact Hm|]. split; [rewrite Hseg; reflexivity|exact Hlen].
Defined.

Lemma new_head_in_grid (head dir : Point) :
  0 <= px (Reptile.new_head head dir) <= GRID_W - 1 /\
  0 <= py (Reptile.new_head head dir) <= GRID_H - 1.
Proof.
  unfold Reptile.new_head; cbn [px py].
  change GRID_W with 60. change GRID_H with 45.
  pose proof (Z.mod_pos_bound (px head + px dir) 60).
  pose proof (Z.mod_pos_bound (py head + py dir) 45).
  lia.
Qed.

Lemma edge_branch_in_range (c limit : Z) :
  0 <= c <= limit - 1 ->
  edge_branch c limit = (if c =? 0 then AtOrBelowZero else Inside).
Proof.
  intros Hc. unfold edge_branch.
  destruct (Z.leb_spec c 0), (Z.eqb_spec c 0), (Z.leb_spec limit c);
    try reflexivity; lia.
Qed.

Lemma check_edges_ok (r : Reptile.t) (head : Point) (rest : list Point) :
  Reptile.segments r = head :: rest ->
  check_edges r =
    Ok (Reptile.set_vitality
          (edge_penalty (edge_branch (py head) (DISPLAY_HEIGHT / REPTILE_DIMENSION))
             (edge_penalty (edge_branch (px head) (DISPLAY_WIDTH / REPTILE_DIMENSION))
                (Reptile.vitality r))) r).
Proof.
  intros Hs. unfold check_edges.
  cbn [Reptile.segments Reptile.set_vitality]. rewrite Hs.
  reflexivity.
Qed.

(** C10: after [move] the head lies in [0..59] x [0..44]; hence the tests
    [x >= 60] and [y >= 45] of the edge check can never be the ones that
    fire, and the check takes 5 off per axis exactly when that coordinate of
    the head is 0.  A head in the last column or last row is not penalised. *)
Theorem edge_penalty_only_at_zero (r r' : Reptile.t) :
  Reptile.move r = Ok r' ->
  exists (head : Point) (r'' : Reptile.t),
    getitem0 (Reptile.segments r') = Ok head /\
    (0 <= px head <= DISPLAY_WIDTH / REPTILE_DIMENSION - 1) /\
    (0 <= py head <= DISPLAY_HEIGHT / REPTILE_DIMENSION - 1) /\
    edge_branch (px head) (DISPLAY_WIDTH / REPTILE_DIMENSION) <> AtOrBeyondLimit /\
    edge_branch (py head) (DISPLAY_HEIGHT / REPTILE_DIMENSION) <> AtOrBeyondLimit /\
    check_edges r' = Ok r'' /\
    Reptile.vitality r'' =
      Reptile.vitality r' - (if px head =? 0 then 5 else 0)
                          - (if py head =? 0 then 5 else 0) /\
    (px head = DISPLAY_WIDTH / REPTILE_DIMENSION - 1 ->
       edge_branch (px head) (DISPLAY_WIDTH / REPTILE_DIMENSION) = Inside) /\
    (py head = DISPLAY_HEIGHT / REPTILE_DIMENSION - 1 ->
       edge_branch (py head) (DISPLAY_HEIGHT / REPTILE_DIMENSION) = Inside).
Proof.
  intros Hm. apply move_inv in Hm as (h0 & rest & Hs & ->).
  set (head := Reptile.new_head h0 (Reptile.move_direction r)).
  destruct (new_head_in_grid h0 (Reptile.move_direction r)) as [Hx Hy].
  fold head in Hx, Hy. fold GRID_W GRID_H.
  pose proof (edge_branch_in_range (px head) GRID_W Hx) as Bx.
  pose proof (edge_branch_in_range (py head) GRID_H Hy) as By.
  eexists head, _.
  split; [reflexivity|].
  split; [exact Hx|]. split; [exact Hy|].
  split; [rewrite Bx; destruct (px head =? 0); discriminate|].
  split; [rewrite By; destruct (py head =? 0); discriminate|].
  split; [apply check_edges_ok with (rest := removelast (h0 :: rest)); reflexivity|].
  split.
  - cbn [Reptile.vitality Reptile.set_vitality Reptile.set_segments].
    fold GRID_W GRID_H. rewrite Bx, By.
    destruct (px head =? 0), (py head =? 0); cbn [edge_penalty]; lia.
  - split; intros E.
    + rewrite Bx. destruct (Z.eqb_spec (px head) 0) as [Z0|]; [|reflexivity].
      rewrite Z0 in E. discriminate E.
    + rewrite By. destruct (Z.eqb_spec (py head) 0) as [Z0|]; [|reflexivity].
      rewrite Z0 in E. discriminate E.
Qed.

Lemma edge_penalty_only_at_zero_witness :
  exists (head : Point) (r'' : Reptile.t),
    head = mkPoint 0 3 /\
    check_edges (Reptile.set_segments [mkPoint 0 3; mkPoint 59 3] edge_runner) = Ok r'' /\
    Reptile.vitality r'' = 95.
Proof.
  destruct (edge_penalty_only_at_zero edge_runner
              (Reptile.set_segments [mkPoint 0 3; mkPoint 59 3] edge_runner))
    as (head & r'' & Hh & _ & _ & _ & _ & Hc & Hv & _).
  - reflexivity.
  - injection Hh as <-. exists (mkPoint 0 3), r''.
    split; [reflexivity|]. split; [exact Hc|]. rewrite Hv. reflexivity.
Defined.

(** ** The steps of a tick, one by one *)

Lemma replenish_frame (s : t) :
  combatant1 (replenish_vitality_orbs s) = combatant1 s /\
  combatant2 (replenish_vitality_orbs s) = combatant2 s /\
  nourishment (replenish_vitality_orbs s) = nourishment s /\
  session (replenish_vitality_orbs s) = session s.
Proof.
  unfold replenish_vitality_orbs, time_time, session.
  cbn [world set_world lastOrbRegen].
  destruct (Qle_bool _ _); cbn; auto.
Qed.

Lemma move_and_check_edges_ok (s : t) (h1 h2 : Point) (t1 t2 : list Point) :
  Reptile.segments (combatant1 s) = h1 :: t1 ->
  Reptile.segments (combatant2 s) = h2 :: t2 ->
  exists c1 c2 s1,
    Reptile.move (combatant1 s) = Ok c1 /\
    Reptile.move (combatant2 s) = Ok c2 /\
    move_and_check_edges s = Ok s1 /\
    check_edges c1 = Ok (combatant1 s1) /\
    check_edges c2 = Ok (combatant2 s1) /\
    nourishment s1 = nourishment s /\
    restorativeOrbs s1 = restorativeOrbs (replenish_vitality_orbs s) /\
    world s1 = world (replenish_vitality_orbs s) /\
    session s1 = session s.
Proof.
  intros H1 H2.
  destruct (replenish_frame s) as (R1 & R2 & R3 & R4).
  pose proof (move_ok _ _ _ H1) as M1.
  pose proof (move_ok _ _ _ H2) as M2.
  do 3 eexists.
  split; [exact M1|]. split; [exact M2|].
  unfold move_and_check_edges.
  rewrite R1, M1. cbn [bind combatant2 set_combatant1].
  rewrite R2, M2. cbn [bind combatant1 combatant2 set_combatant1 set_combatant2].
  erewrite check_edges_ok by reflexivity.
  cbn [bind combatant1 combatant2 set_combatant1 set_combatant2].
  erewrite check_edges_ok by reflexivity.
  cbn [bind].
  split; [reflexivity|].
  cbn [combatant1 combatant2 set_combatant1 set_combatant2 nourishment
       restorativeOrbs world].
  repeat split; assumption.
Qed.

Lemma move_and_check_edges_inv (s s1 : t) :
  move_and_check_edges s = Ok s1 ->
  exists h1 t1 h2 t2,
    Reptile.segments (combatant1 s) = h1 :: t1 /\
    Reptile.segments (combatant2 s) = h2 :: t2.
Proof.
  unfold move_and_check_edges. intros H.
  destruct (replenish_frame s) as (R1 & R2 & _).
  inv_bind H. rewrite R1 in Ha. apply move_inv in Ha as (h1 & t1 & E1 & _).
  inv_bind H. cbn [combatant2 set_combatant1] in Ha0. rewrite R2 in Ha0.
  apply move_inv in Ha0 as (h2 & t2 & E2 & _).
  eauto 6.
Qed.

Lemma check_edges_inv (r r' : Reptile.t) :
  check_edges r = Ok r' ->
  Reptile.segments r' = Reptile.segments r /\
  Reptile.move_direction r' = Reptile.move_direction r /\
  Reptile.tally r' = Reptile.tally r /\
  Reptile.vitality r - 10 <= Reptile.vitality r' <= Reptile.vitality r.
Proof.
  intros H. destruct (Reptile.segments r) as [|h t] eqn:Hs.
  - unfold check_edges in H. rewrite Hs in H. discriminate.
  - rewrite (check_edges_ok r h t Hs) in H. injection H as <-.
    cbn [Reptile.segments Reptile.move_direction Reptile.tally Reptile.vitality
         Reptile.set_vitality].
    repeat split; try assumption.
    + destruct (edge_branch (py h) _), (edge_branch (px h) _);
        cbn [edge_penalty]; lia.
    + destruct (edge_branch (py h) _), (edge_branch (px h) _);
        cbn [edge_penalty]; lia.
Qed.

Lemma detect_collision_ok (r : Reptile.t) (h : Point) (t : list Point) (item : Point) :
  Reptile.segments r = h :: t ->
  Reptile.detect_collision r item = Ok (bool_decide (item = h)).
Proof.
  intros Hs. unfold Reptile.detect_collision. rewrite Hs.
  cbn [getitem0 bind]. f_equal.
  destruct h as [hx hy], item as [ix iy]; cbn [px py].
  repeat case_bool_decide; simplify_eq; try reflexivity; congruence.
Qed.

Lemma list_remove_app {A : Type} `{EqDecision A} (a : A) (pre l : list A) :
  (forall b, b ∈ pre -> b <> a) ->
  list_remove a (pre ++ a :: l) = Ok (pre ++ l).
Proof.
  induction pre as [|b pre IH]; intros Hpre; cbn [app list_remove].
  - rewrite decide_True by reflexivity. reflexivity.
  - rewrite decide_False by (apply Hpre; left).
    rewrite IH by (intros c Hc; apply Hpre; right; exact Hc).
    reflexivity.
Qed.

Lemma consume_loop (h1 h2 : Point) (t1 t2 : list Point) (l : list VitalityOrb.t) :
  forall (pre : list VitalityOrb.t) (s : t),
    Reptile.segments (combatant1 s) = h1 :: t1 ->
    Reptile.segments (combatant2 s) = h2 :: t2 ->
    restorativeOrbs s = pre ++ l ->
    (forall o, o ∈ pre ->
       VitalityOrb.coordinates o <> h1 /\ VitalityOrb.coordinates o <> h2) ->
    for_each consume_orb l s = Ok (after_orbs h1 h2 pre l s).
Proof.
  induction l as [|o l IH]; intros pre s H1 H2 Horbs Hpre.
  - cbn [for_each]. f_equal. unfold after_orbs, orbs_at, orbs_off.
    rewrite !filter_nil. cbn [length heal_times]. rewrite <- Horbs.
    destruct s as [? ? ? ? ? [] [] ?]; reflexivity.
  - cbn [for_each]. unfold consume_orb at 1.
    rewrite (detect_collision_ok _ _ _ _ H1). cbn [bind].
    case_bool_decide as E1.
    + rewrite Horbs, list_remove_app
        by (intros b Hb ->; destruct (Hpre _ Hb) as [N _]; exact (N E1)).
      cbn [bind].
      etransitivity;
        [apply (IH pre); [exact H1|exact H2|reflexivity|exact Hpre]|].
      f_equal. unfold after_orbs, orbs_at, orbs_off.
      repeat (rewrite filter_cons; destruct (decide _); try (exfalso; tauto)).
      reflexivity.
    + rewrite (detect_collision_ok _ _ _ _ H2). cbn [bind].
      case_bool_decide as E2.
      * rewrite Horbs, list_remove_app
          by (intros b Hb ->; destruct (Hpre _ Hb) as [_ N]; exact (N E2)).
        cbn [bind].
        etransitivity;
        [apply (IH pre); [exact H1|exact H2|reflexivity|exact Hpre]|].
        f_equal. unfold after_orbs, orbs_at, orbs_off.
        repeat (rewrite filter_cons; destruct (decide _); try (exfalso; tauto)).
        reflexivity.
      * etransitivity; [apply (IH (pre ++ [o])); [exact H1|exact H2| |]|].
        -- rewrite <- app_assoc. exact Horbs.
        -- intros b Hb. apply elem_of_app in Hb as [Hb|Hb]; [auto|].
           apply list_elem_of_singleton in Hb as ->. tauto.
        -- f_equal. unfold after_orbs, orbs_at, orbs_off.
           repeat (rewrite filter_cons; destruct (decide _); try (exfalso; tauto)).
           rewrite <- app_assoc. reflexivity.
Qed.

Lemma consume_orbs_ok (s : t) (h1 h2 : Point) (t1 t2 : list Point) :
  Reptile.segments (combatant1 s) = h1 :: t1 ->
  Reptile.segments (combatant2 s) = h2 :: t2 ->
  consume_orbs s = Ok (after_orbs h1 h2 [] (restorativeOrbs s) s).
Proof.
  intros H1 H2. unfold consume_orbs.
  apply (consume_loop h1 h2 t1 t2); [exact H1|exact H2|reflexivity|].
  intros o Ho. apply elem_of_nil in Ho. contradiction.
Qed.

Lemma heal_le_100 (v : Z) : v <= 100 -> heal v <= 100.
Proof. unfold heal. lia. Qed.

Lemma heal_times_le_100 (n : nat) : forall v, v <= 100 -> heal_times n v <= 100.
Proof.
  induction n as [|n IH]; intros v Hv; cbn [heal_times]; [exact Hv|].
  apply IH, heal_le_100, Hv.
Qed.

Lemma heal_times_ge (n : nat) : forall v, v <= 100 -> v <= heal_times n v.
Proof.
  induction n as [|n IH]; intros v Hv; cbn [heal_times]; [lia|].
  etransitivity; [|apply IH, heal_le_100, Hv]. unfold heal. lia.
Qed.

Lemma combatant_collisions_ok (s : t) (h1 h2 : Point) (t1 t2 : list Point) :
  Reptile.segments (combatant1 s) = h1 :: t1 ->
  Reptile.segments (combatant2 s) = h2 :: t2 ->
  exists s',
    combatant_collisions s = Ok s' /\
    session s' = session s /\
    restorativeOrbs s' = restorativeOrbs s /\
    nourishment s' = nourishment s /\
    world s' = world s /\
    Reptile.segments (combatant1 s') = Reptile.segments (combatant1 s) /\
    Reptile.segments (combatant2 s') = Reptile.segments (combatant2 s) /\
    Reptile.move_direction (combatant1 s') = Reptile.move_direction (combatant1 s) /\
    Reptile.move_direction (combatant2 s') = Reptile.move_direction (combatant2 s) /\
    Reptile.tally (combatant1 s') = Reptile.tally (combatant1 s) /\
    Reptile.tally (combatant2 s') = Reptile.tally (combatant2 s) /\
    Reptile.vitality (combatant1 s') =
      Reptile.vitality (combatant1 s) - (if bool_decide (h1 ∈ h2 :: t2) then 5 else 0) /\
    Reptile.vitality (combatant2 s') =
      Reptile.vitality (combatant2 s) - (if bool_decide (h2 ∈ h1 :: t1) then 5 else 0).
Proof.
  intros H1 H2. unfold combatant_collisions.
  rewrite H1. cbn [getitem0 bind]. rewrite H2.
  destruct (bool_decide (h1 ∈ h2 :: t2)) eqn:B1;
    cbn [on_combatant1 combatant1 combatant2 set_combatant1 Reptile.segments
         Reptile.set_vitality];
    rewrite H1, H2; cbn [getitem0 bind];
    destruct (bool_decide (h2 ∈ h1 :: t1)) eqn:B2;
    eexists; (split; [reflexivity|]); cbn; rewrite ?H1, ?H2;
    repeat split; lia.
Qed.

Lemma getitem_last_cons {A : Type} (a : A) (l : list A) :
  exists b, getitem_last (a :: l) = Ok b.
Proof.
  unfold getitem_last. destruct (last (a :: l)) as [b|] eqn:E; [eauto|].
  apply last_None in E. discriminate.
Qed.

Lemma generate_nourishment_in_grid (w : World) :
  0 <= px (fst (generate_nourishment w)) <= GRID_W - 1 /\
  0 <= py (fst (generate_nourishment w)) <= GRID_H - 1.
Proof.
  unfold generate_nourishment, randint. cbn [fst px py entropy draws].
  change (DISPLAY_WIDTH / REPTILE_DIMENSION - 1 - 0 + 1) with 60.
  change (DISPLAY_HEIGHT / REPTILE_DIMENSION - 1 - 0 + 1) with 45.
  change GRID_W with 60. change GRID_H with 45.
  pose proof (Z.mod_pos_bound (entropy w (draws w)) 60).
  pose proof (Z.mod_pos_bound (entropy w (S (draws w))) 45).
  lia.
Qed.

Lemma eat1_ok (s : t) (h1 : Point) (t1 : list Point) :
  Reptile.segments (combatant1 s) = h1 :: t1 ->
  exists s',
    eat1 s = Ok s' /\
    session s' = session s /\
    combatant2 s' = combatant2 s /\
    restorativeOrbs s' = restorativeOrbs s /\
    Reptile.vitality (combatant1 s') = Reptile.vitality (combatant1 s) /\
    Reptile.move_direction (combatant1 s') = Reptile.move_direction (combatant1 s) /\
    if bool_decide (nourishment s = h1)
    then (exists tl, Reptile.segments (combatant1 s') = (h1 :: t1) ++ [tl]) /\
         Reptile.tally (combatant1 s') = Reptile.tally (combatant1 s) + 5 /\
         nourishment s' = fst (generate_nourishment (world s)) /\
         world s' = snd (generate_nourishment (world s))
    else s' = s.
Proof.
  intros H1. unfold eat1.
  rewrite (detect_collision_ok _ _ _ _ H1). cbn [bind].
  destruct (bool_decide (nourishment s = h1)); [|eexists; repeat split].
  destruct (generate_nourishment (world s)) as [food w] eqn:G.
  unfold Reptile.expand.
  cbn [on_combatant1 combatant1 set_combatant1 set_nourishment set_world
       Reptile.segments Reptile.set_tally].
  rewrite H1. destruct (getitem_last_cons h1 t1) as (tl & ->). cbn [bind].
  eexists. split; [reflexivity|]. cbn.
  repeat split. exists tl. reflexivity.
Qed.

Lemma eat2_ok (s : t) (h2 : Point) (t2 : list Point) :
  Reptile.segments (combatant2 s) = h2 :: t2 ->
  exists s',
    eat2 s = Ok s' /\
    session s' = session s /\
    combatant1 s' = combatant1 s /\
    restorativeOrbs s' = restorativeOrbs s /\
    Reptile.vitality (combatant2 s') = Reptile.vitality (combatant2 s) /\
    Reptile.move_direction (combatant2 s') = Reptile.move_direction (combatant2 s) /\
    if bool_decide (nourishment s = h2)
    then (exists tl, Reptile.segments (combatant2 s') = (h2 :: t2) ++ [tl]) /\
         Reptile.tally (combatant2 s') = Reptile.tally (combatant2 s) + 5 /\
         nourishment s' = fst (generate_nourishment (world s)) /\
         world s' = snd (generate_nourishment (world s))
    else s' = s.
Proof.
  intros H2. unfold eat2.
  rewrite (detect_collision_ok _ _ _ _ H2). cbn [bind].
  destruct (bool_decide (nourishment s = h2)); [|eexists; repeat split].
  destruct (generate_nourishment (world s)) as [food w] eqn:G.
  unfold Reptile.expand.
  cbn [on_combatant2 combatant2 set_combatant2 set_nourishment set_world
       Reptile.segments Reptile.set_tally].
  rewrite H2. destruct (getitem_last_cons h2 t2) as (tl & ->). cbn [bind].
  eexists. split; [reflexivity|]. cbn.
  repeat split. exists tl. reflexivity.
Qed.

Lemma interaction_checks_ok (s : t) (h1 h2 : Point) (t1 t2 : list Point) :
  Reptile.segments (combatant1 s) = h1 :: t1 ->
  Reptile.segments (combatant2 s) = h2 :: t2 ->
  exists s',
    interaction_checks s = Ok s' /\
    session s' = session s /\
    restorativeOrbs s' = orbs_off h1 h2 (restorativeOrbs s) /\
    (exists e1, Reptile.segments (combatant1 s') = (h1 :: t1) ++ e1) /\
    (exists e2, Reptile.segments (combatant2 s') = (h2 :: t2) ++ e2) /\
    Reptile.move_direction (combatant1 s') = Reptile.move_direction (combatant1 s) /\
    Reptile.move_direction (combatant2 s') = Reptile.move_direction (combatant2 s) /\
    Reptile.vitality (combatant1 s') =
      heal_times (length (orbs_at h1 (restorativeOrbs s)))
                 (Reptile.vitality (combatant1 s))
      - (if bool_decide (h1 ∈ h2 :: t2) then 5 else 0) /\
    Reptile.vitality (combatant2 s') =
      heal_times (length (orbs_at h2
                    (filter (fun o => VitalityOrb.coordinates o <> h1) (restorativeOrbs s))))
                 (Reptile.vitality (combatant2 s))
      - (if bool_decide (h2 ∈ h1 :: t1) then 5 else 0) /\
    (nourishment s = h1 ->
       Reptile.tally (combatant1 s') = Reptile.tally (combatant1 s) + 5 /\
       length (Reptile.segments (combatant1 s')) = S (length (h1 :: t1))).
Proof.
  intros H1 H2. unfold interaction_checks.
  rewrite (consume_orbs_ok s h1 h2 t1 t2 H1 H2). cbn [bind].
  set (a := after_orbs h1 h2 [] (restorativeOrbs s) s).
  assert (A1 : Reptile.segments (combatant1 a) = h1 :: t1) by exact H1.
  assert (A2 : Reptile.segments (combatant2 a) = h2 :: t2) by exact H2.
  destruct (combatant_collisions_ok a h1 h2 t1 t2 A1 A2)
    as (b & -> & Bs & Bo & Bn & Bw & B1 & B2 & Bd1 & Bd2 & Bt1 & Bt2 & Bv1 & Bv2).
  cbn [bind]. rewrite A1 in B1. rewrite A2 in B2.
  destruct (eat1_ok b h1 t1 B1) as (c & -> & Cs & C2 & Co & Cv & Cd & Ceat).
  cbn [bind].
  assert (C2' : Reptile.segments (combatant2 c) = h2 :: t2) by (rewrite C2; exact B2).
  destruct (eat2_ok c h2 t2 C2') as (d & -> & Ds & D1 & Do & Dv & Dd & Deat).
  exists d. split; [reflexivity|].
  split; [rewrite Ds, Cs, Bs; reflexivity|].
  split; [rewrite Do, Co, Bo; reflexivity|].
  split.
  { rewrite D1. destruct (bool_decide (nourishment b = h1)).
    - destruct Ceat as ((tl & ->) & _). eauto.
    - rewrite Ceat, B1. exists []. rewrite app_nil_r. reflexivity. }
  split.
  { destruct (bool_decide (nourishment c = h2)).
    - destruct Deat as ((tl & ->) & _). eauto.
    - rewrite Deat, C2'. exists []. rewrite app_nil_r. reflexivity. }
  split; [rewrite D1, Cd, Bd1; reflexivity|].
  split; [rewrite Dd, C2, Bd2; reflexivity|].
  split; [rewrite D1, Cv, Bv1; reflexivity|].
  split; [rewrite Dv, C2, Bv2; reflexivity|].
  intros Hfood. rewrite D1.
  assert (Hb : nourishment b = h1) by (rewrite Bn; exact Hfood).
  rewrite bool_decide_eq_true_2 in Ceat by exact Hb.
  destruct Ceat as ((tl & ->) & -> & _).
  split; [rewrite Bt1; reflexivity|].
  rewrite length_app. cbn [length]. lia.
Qed.

Lemma end_battle_inv (ns : Namespace) (s s' : t) :
  archive_as_specified ns ->
  end_battle ns s = Ok s' ->
  s' = after_battle_end s.
Proof.
  intros Hns. unfold end_battle, after_battle_end, call_method.
  destruct (battle_ends s); [|congruence].
  destruct (ns !! "archive_scores") as [f|] eqn:E; [|discriminate].
  rewrite (Hns f E s). cbn [archive_scores bind].
  change (currentBattle (archived s)) with (currentBattle s).
  change (totalRounds (archived s)) with (totalRounds s).
  destruct (currentBattle s <? totalRounds s); congruence.
Qed.

Lemma end_battle_ok (ns : Namespace) (s : t) :
  ns !! "archive_scores" = Some archive_scores ->
  end_battle ns s = Ok (after_battle_end s).
Proof.
  intros Hns. unfold end_battle, after_battle_end, call_method.
  destruct (battle_ends s); [|reflexivity].
  rewrite Hns. cbn [archive_scores bind].
  change (currentBattle (archived s)) with (currentBattle s).
  change (totalRounds (archived s)) with (totalRounds s).
  destruct (currentBattle s <? totalRounds s); reflexivity.
Qed.

Lemma end_battle_quiet (ns : Namespace) (s : t) :
  battle_ends s = false -> end_battle ns s = Ok s.
Proof. intros H. unfold end_battle. rewrite H. reflexivity. Qed.

(** ** Orb consumption *)

(** C5, as the code has it: the scan visits every orb of the list as it
    stood at the start of the scan, testing reptile 1 before reptile 2 for
    each orb.  Every orb on the head of reptile 1 goes to reptile 1, every
    other orb on the head of reptile 2 goes to reptile 2, each one adding 30
    health capped at 100; the orbs on neither head stay, in order. *)
Theorem orb_scan_consumes_every_match
    (s : t) (h1 h2 : Point) (t1 t2 : list Point) :
  Reptile.segments (combatant1 s) = h1 :: t1 ->
  Reptile.segments (combatant2 s) = h2 :: t2 ->
  exists s',
    consume_orbs s = Ok s' /\
    restorativeOrbs s' = orbs_off h1 h2 (restorativeOrbs s) /\
    Reptile.vitality (combatant1 s') =
      heal_times (length (orbs_at h1 (restorativeOrbs s)))
                 (Reptile.vitality (combatant1 s)) /\
    Reptile.vitality (combatant2 s') =
      heal_times
        (length (orbs_at h2
           (filter (fun o => VitalityOrb.coordinates o <> h1) (restorativeOrbs s))))
        (Reptile.vitality (combatant2 s)) /\
    Reptile.segments (combatant1 s') = Reptile.segments (combatant1 s) /\
    Reptile.segments (combatant2 s') = Reptile.segments (combatant2 s) /\
    session s' = session s.
Proof.
  intros H1 H2. eexists.
  split; [apply (consume_orbs_ok s h1 h2 t1 t2 H1 H2)|].
  unfold after_orbs. cbn. repeat split.
Qed.

Lemma orb_scan_consumes_every_match_witness :
  exists s',
    consume_orbs
      (set_combatant1 (Reptile.mk [mkPoint 10 10] MOVE_RIGHT COLOR_YELLOW 10 0) two_orbs)
      = Ok s' /\
    restorativeOrbs s' = [] /\
    Reptile.vitality (combatant1 s') = 70.
Proof.
  destruct (orb_scan_consumes_every_match
              (set_combatant1
                 (Reptile.mk [mkPoint 10 10] MOVE_RIGHT COLOR_YELLOW 10 0) two_orbs)
              (mkPoint 10 10) SPAWN2 [] [])
    as (s' & Hc & Ho & Hv & _).
  - reflexivity.
  - reflexivity.
  - exists s'. split; [exact Hc|]. split; [rewrite Ho|rewrite Hv]; reflexivity.
Defined.

(** C5, as stated, fails: with two orbs on the cell reptile 1 steps on, one
    tick removes both and heals reptile 1 twice (10 -> 40 -> 70). *)
Lemma one_reptile_takes_two_orbs_in_a_tick :
  length (restorativeOrbs two_orbs) = 2%nat /\
  exists s',
    advance_game written_class two_orbs = Ok s' /\
    restorativeOrbs s' = [] /\
    Reptile.vitality (combatant1 two_orbs) = 10 /\
    Reptile.vitality (combatant1 s') = 70 /\
    Reptile.vitality (combatant2 s') = Reptile.vitality (combatant2 two_orbs).
Proof.
  split; [reflexivity|].
  eexists. split; [vm_compute; reflexivity|].
  repeat split.
Qed.

(** ** Facts about the first half of a tick and about the battle end *)

Lemma move_and_check_edges_facts (s s1 : t) :
  move_and_check_edges s = Ok s1 ->
  session s1 = session s /\
  nourishment s1 = nourishment s /\
  (exists h t, Reptile.segments (combatant1 s1) = h :: t) /\
  (exists h t, Reptile.segments (combatant2 s1) = h :: t) /\
  length (Reptile.segments (combatant1 s1)) = length (Reptile.segments (combatant1 s)) /\
  length (Reptile.segments (combatant2 s1)) = length (Reptile.segments (combatant2 s)) /\
  Reptile.vitality (combatant1 s) - 10 <= Reptile.vitality (combatant1 s1)
    <= Reptile.vitality (combatant1 s) /\
  Reptile.vitality (combatant2 s) - 10 <= Reptile.vitality (combatant2 s1)
    <= Reptile.vitality (combatant2 s).
Proof.
  intros H.
  destruct (move_and_check_edges_inv s s1 H) as (h1 & t1 & h2 & t2 & E1 & E2).
  destruct (move_and_check_edges_ok s h1 h2 t1 t2 E1 E2)
    as (c1 & c2 & s1' & M1 & M2 & Hs1 & C1 & C2 & Hn & _ & _ & Hsess).
  rewrite H in Hs1. injection Hs1 as <-.
  rewrite (move_ok _ _ _ E1) in M1. injection M1 as <-.
  rewrite (move_ok _ _ _ E2) in M2. injection M2 as <-.
  apply check_edges_inv in C1 as (S1 & _ & _ & V1).
  apply check_edges_inv in C2 as (S2 & _ & _ & V2).
  cbn [Reptile.segments Reptile.set_segments Reptile.vitality] in S1, S2, V1, V2.
  rewrite S1, S2, E1, E2.
  split; [exact Hsess|]. split; [exact Hn|].
  split; [eauto|]. split; [eauto|].
  split; [cbn [length]; f_equal; apply length_removelast_cons|].
  split; [cbn [length]; f_equal; apply length_removelast_cons|].
  split; assumption.
Qed.

Lemma after_battle_end_cases (s : t) :
  (battle_ends s = false /\ after_battle_end s = s) \/
  (battle_ends s = true /\ currentBattle s < totalRounds s /\
   after_battle_end s =
     initialize_next_battle (set_currentBattle (currentBattle s + 1) (archived s))) \/
  (battle_ends s = true /\ totalRounds s <= currentBattle s /\
   after_battle_end s = set_isOver true (archived s)).
Proof.
  unfold after_battle_end.
  destruct (battle_ends s); [|auto].
  destruct (Z.ltb_spec (currentBattle s) (totalRounds s)); auto.
Qed.

Lemma initialize_next_battle_facts (s : t) :
  combatant1 (initialize_next_battle s) = Reptile.init SPAWN1 MOVE_RIGHT COLOR_YELLOW /\
  combatant2 (initialize_next_battle s) = Reptile.init SPAWN2 MOVE_LEFT COLOR_ORANGE /\
  restorativeOrbs (initialize_next_battle s) = [] /\
  nourishment (initialize_next_battle s) = fst (generate_nourishment (world s)) /\
  lastOrbRegen (initialize_next_battle s) = wall_clock (world s) (reads (world s)) /\
  session (initialize_next_battle s) = session s.
Proof. repeat split. Qed.

Lemma after_battle_end_segments (s : t) :
  (exists h t, Reptile.segments (combatant1 s) = h :: t) ->
  (exists h t, Reptile.segments (combatant2 s) = h :: t) ->
  (exists h t, Reptile.segments (combatant1 (after_battle_end s)) = h :: t) /\
  (exists h t, Reptile.segments (combatant2 (after_battle_end s)) = h :: t).
Proof.
  intros N1 N2.
  destruct (after_battle_end_cases s) as [(_ & ->)|[(_ & _ & ->)|(_ & _ & ->)]].
  - auto.
  - split; [exists SPAWN1, []|exists SPAWN2, []]; reflexivity.
  - auto.
Qed.

Lemma after_battle_end_health (s : t) :
  Reptile.vitality (combatant1 s) <= 100 ->
  Reptile.vitality (combatant2 s) <= 100 ->
  Reptile.vitality (combatant1 (after_battle_end s)) <= 100 /\
  Reptile.vitality (combatant2 (after_battle_end s)) <= 100.
Proof.
  intros V1 V2.
  destruct (after_battle_end_cases s) as [(_ & ->)|[(_ & _ & ->)|(_ & _ & ->)]].
  - auto.
  - split; cbn; lia.
  - auto.
Qed.

(** A tick that returns is the interaction checks run on what the battle
    end left. *)
Lemma advance_game_inv (ns : Namespace) (s s' : t) :
  archive_as_specified ns ->
  advance_game ns s = Ok s' ->
  exists s1,
    move_and_check_edges s = Ok s1 /\
    end_battle ns s1 = Ok (after_battle_end s1) /\
    interaction_checks (after_battle_end s1) = Ok s'.
Proof.
  intros Hns H. unfold advance_game in H.
  inv_bind H. inv_bind H.
  pose proof (end_battle_inv ns _ _ Hns Ha0) as ->.
  eauto.
Qed.

(** ** Health *)

Lemma consume_orb_health (s s' : t) (o : VitalityOrb.t) :
  consume_orb s o = Ok s' ->
  Reptile.vitality (combatant1 s) <= 100 ->
  Reptile.vitality (combatant2 s) <= 100 ->
  Reptile.vitality (combatant1 s') <= 100 /\ Reptile.vitality (combatant2 s') <= 100.
Proof.
  unfold consume_orb. intros H V1 V2.
  inv_bind H. destruct a.
  - inv_bind H. injection H as <-. cbn. lia.
  - inv_bind H. destruct a.
    + inv_bind H. injection H as <-. cbn. lia.
    + injection H as <-. auto.
Qed.

Lemma for_each_consume_orb_health (l : list VitalityOrb.t) :
  forall s s',
    for_each consume_orb l s = Ok s' ->
    Reptile.vitality (combatant1 s) <= 100 ->
    Reptile.vitality (combatant2 s) <= 100 ->
    Reptile.vitality (combatant1 s') <= 100 /\ Reptile.vitality (combatant2 s') <= 100.
Proof.
  induction l as [|o l IH]; intros s s' H V1 V2; cbn [for_each] in H.
  - injection H as <-. auto.
  - inv_bind H.
    destruct (consume_orb_health _ _ _ Ha V1 V2) as [W1 W2].
    exact (IH _ _ H W1 W2).
Qed.

Lemma combatant_collisions_health (s s' : t) :
  combatant_collisions s = Ok s' ->
  Reptile.vitality (combatant1 s') <= Reptile.vitality (combatant1 s) /\
  Reptile.vitality (combatant2 s') <= Reptile.vitality (combatant2 s).
Proof.
  unfold combatant_collisions. intros H.
  inv_bind H. inv_bind H. injection H as <-.
  repeat (destruct (bool_decide _)); cbn; lia.
Qed.

(** C2, as the code has it: health never exceeds 100.  The edge penalty, the
    orb scan, the collision penalty and the whole tick each leave both
    health values at most 100 when they were so before: the orb bonus is
    capped by [min(.., 100)], the penalties subtract 5 and nothing caps
    them from below. *)
Theorem health_never_above_100 (ns : Namespace) (s s' : t) :
  archive_as_specified ns ->
  Reptile.vitality (combatant1 s) <= 100 ->
  Reptile.vitality (combatant2 s) <= 100 ->
  move_and_check_edges s = Ok s' \/ consume_orbs s = Ok s' \/
    combatant_collisions s = Ok s' \/ advance_game ns s = Ok s' ->
  Reptile.vitality (combatant1 s') <= 100 /\ Reptile.vitality (combatant2 s') <= 100.
Proof.
  intros Hns V1 V2 [H|[H|[H|H]]].
  - apply move_and_check_edges_facts in H as (_ & _ & _ & _ & _ & _ & W1 & W2). lia.
  - exact (for_each_consume_orb_health _ _ _ H V1 V2).
  - apply combatant_collisions_health in H. lia.
  - apply (advance_game_inv ns s s' Hns) in H as (s1 & Hm & _ & Hi).
    pose proof (move_and_check_edges_facts s s1 Hm)
      as (_ & _ & N1 & N2 & _ & _ & W1 & W2).
    destruct (after_battle_end_segments s1 N1 N2) as [(h1 & t1 & E1) (h2 & t2 & E2)].
    destruct (after_battle_end_health s1) as [X1 X2]; [lia|lia|].
    destruct (interaction_checks_ok _ h1 h2 t1 t2 E1 E2)
      as (s'' & Hi' & _ & _ & _ & _ & _ & _ & Y1 & Y2 & _).
    rewrite Hi in Hi'. injection Hi' as <-.
    pose proof (heal_times_le_100 (length (orbs_at h1 (restorativeOrbs (after_battle_end s1))))
                  _ X1).
    pose proof (heal_times_le_100
                  (length (orbs_at h2
                     (filter (fun o => VitalityOrb.coordinates o <> h1)
                        (restorativeOrbs (after_battle_end s1))))) _ X2).
    rewrite Y1, Y2.
    destruct (bool_decide (h1 ∈ h2 :: t2)), (bool_decide (h2 ∈ h1 :: t1)); lia.
Qed.

Lemma written_class_as_specified : archive_as_specified written_class.
Proof. intros f Hf. unfold written_class in Hf. rewrite lookup_empty in Hf. discriminate. Qed.

Lemma completed_class_as_specified : archive_as_specified completed_class.
Proof.
  intros f Hf s. unfold completed_class in Hf.
  rewrite lookup_singleton_eq in Hf. injection Hf as <-. reflexivity.
Qed.

Lemma health_never_above_100_witness :
  exists s',
    advance_game written_class two_orbs = Ok s' /\
    Reptile.vitality (combatant1 s') <= 100 /\ Reptile.vitality (combatant2 s') <= 100.
Proof.
  assert (E : exists s', advance_game written_class two_orbs = Ok s')
    by (vm_compute; eauto).
  destruct E as (s' & E). exists s'. split; [exact E|].
  apply (health_never_above_100 written_class two_orbs s').
  - exact written_class_as_specified.
  - cbn. lia.
  - cbn. lia.
  - right; right; right. exact E.
Defined.

(** C2, as stated, fails: nothing clamps health at 0.  From the start of
    a battle, the script [to_the_corner] brings reptile 1 next to the corner
    cell (0,0) with health 5; its next step lands on the corner, the edge
    check takes 5 for each axis and leaves -5.  In the tick of the last
    battle of a session the value is still -5 when the tick is over. *)
Lemma health_drops_below_zero :
  (exists s,
     play written_class to_the_corner playing = Ok s /\
     combatant1 s = cornered) /\
  0 <= Reptile.vitality cornered <= 100 /\
  (exists r1 r2,
     Reptile.move cornered = Ok r1 /\
     check_edges r1 = Ok r2 /\
     Reptile.vitality r2 = -5) /\
  (exists s',
     advance_game completed_class (set_totalRounds 1 (set_combatant1 cornered playing))
       = Ok s' /\
     Reptile.vitality (combatant1 s') = -5 /\
     ~ (0 <= Reptile.vitality (combatant1 s') <= 100)).
Proof.
  split; [eexists; split; [vm_compute; reflexivity|reflexivity]|].
  split; [cbn; lia|]. split.
  - do 2 eexists. split; [reflexivity|]. split; reflexivity.
  - eexists. split; [vm_compute; reflexivity|].
    split; [reflexivity|]. cbn. lia.
Qed.

(** ** Round progression *)

Lemma session_fields (a b : t) :
  session a = session b ->
  isInPlay a = isInPlay b /\ isOver a = isOver b /\
  totalRounds a = totalRounds b /\ currentBattle a = currentBattle b /\
  battleScores a = battleScores b.
Proof. unfold session. intros [= ]. auto. Qed.

Lemma tick_ends_battle_eq (s s1 : t) :
  move_and_check_edges s = Ok s1 -> tick_ends_battle s = battle_ends s1.
Proof. intros H. unfold tick_ends_battle. rewrite H. reflexivity. Qed.

(** What one tick does to the session and to the body lengths. *)
Lemma tick_facts (ns : Namespace) (s s' : t) :
  archive_as_specified ns ->
  advance_game ns s = Ok s' ->
  totalRounds s' = totalRounds s /\
  isInPlay s' = isInPlay s /\
  if tick_ends_battle s && (currentBattle s <? totalRounds s)
  then currentBattle s' = currentBattle s + 1 /\ isOver s' = isOver s
  else currentBattle s' = currentBattle s /\
       isOver s' = (isOver s || tick_ends_battle s) /\
       (length (Reptile.segments (combatant1 s)) <= length (Reptile.segments (combatant1 s')))%nat /\
       (length (Reptile.segments (combatant2 s)) <= length (Reptile.segments (combatant2 s')))%nat.
Proof.
  intros Hns H.
  apply (advance_game_inv ns s s' Hns) in H as (s1 & Hm & _ & Hi).
  rewrite (tick_ends_battle_eq s s1 Hm).
  pose proof (move_and_check_edges_facts s s1 Hm)
    as (Hsess & _ & N1 & N2 & L1 & L2 & _ & _).
  apply session_fields in Hsess as (P1 & O1 & T1 & B1 & _).
  rewrite <- P1, <- O1, <- T1, <- B1, <- L1, <- L2.
  destruct (after_battle_end_segments s1 N1 N2) as [(h1 & t1 & E1) (h2 & t2 & E2)].
  destruct (interaction_checks_ok _ h1 h2 t1 t2 E1 E2)
    as (s'' & Hi' & Hsess' & _ & (e1 & F1) & (e2 & F2) & _).
  rewrite Hi in Hi'. injection Hi' as <-.
  apply session_fields in Hsess' as (P2 & O2 & T2 & B2 & _).
  rewrite P2, O2, T2, B2, F1, F2, <- E1, <- E2, !length_app.
  destruct (after_battle_end_cases s1) as [(Hb & ->)|[(Hb & Hlt & ->)|(Hb & Hge & ->)]];
    rewrite Hb.
  - cbn [andb]. rewrite orb_false_r. repeat split; lia.
  - rewrite (proj2 (Z.ltb_lt _ _) Hlt). cbn [andb]. repeat split.
  - rewrite (proj2 (Z.ltb_ge _ _) Hge). cbn [andb]. rewrite orb_true_r.
    cbn. repeat split; lia.
Qed.

Lemma run_progression (ns : Namespace) (n : nat) :
  archive_as_specified ns ->
  forall (s s' : t) (k : nat),
    currentBattle s <= totalRounds s ->
    run ns n s = Ok (s', k) ->
    totalRounds s' = totalRounds s /\
    currentBattle s' = Z.min (currentBattle s + Z.of_nat k) (totalRounds s) /\
    isOver s' = (isOver s || (totalRounds s - currentBattle s <? Z.of_nat k)).
Proof.
  intros Hns. induction n as [|n IH]; intros s s' k Hle H; cbn [run] in H.
  - injection H as <- <-. split; [reflexivity|].
    split; [cbn; lia|].
    rewrite (proj2 (Z.ltb_ge _ _)) by (cbn; lia). rewrite orb_false_r. reflexivity.
  - inv_bind H. inv_bind H. destruct a0 as [s2 k2]. injection H as <- <-.
    cbn [fst snd].
    pose proof (tick_facts ns s a Hns Ha) as (T1 & _ & Hcase).
    destruct (tick_ends_battle s) eqn:Hb; cbn [andb] in Hcase.
    + destruct (Z.ltb_spec (currentBattle s) (totalRounds s)) as [Hlt|Hge].
      * destruct Hcase as (B1 & O1).
        destruct (IH a s2 k2 ltac:(lia) Ha0) as (T2 & B2 & O2).
        rewrite T2, B2, O2, T1, B1, O1.
        split; [reflexivity|]. split; [lia|]. f_equal.
        destruct (Z.ltb_spec (totalRounds s - (currentBattle s + 1)) (Z.of_nat k2)),
          (Z.ltb_spec (totalRounds s - currentBattle s) (Z.of_nat (1 + k2)));
          try reflexivity; lia.
      * destruct Hcase as (B1 & O1 & _).
        destruct (IH a s2 k2 ltac:(lia) Ha0) as (T2 & B2 & O2).
        rewrite T2, B2, O2, T1, B1, O1.
        split; [reflexivity|]. split; [lia|].
        rewrite orb_true_r. cbn [orb].
        rewrite (proj2 (Z.ltb_lt _ _)) by lia. rewrite orb_true_r. reflexivity.
    + destruct Hcase as (B1 & O1 & _).
      destruct (IH a s2 k2 ltac:(lia) Ha0) as (T2 & B2 & O2).
      rewrite T2, B2, O2, T1, B1, O1, orb_false_r.
      cbn [Nat.add]. auto.
Qed.

Lemma archived_scores (s : t) :
  battleScores (archived s) !! "Combatant 1" =
    (fun l => l ++ [Reptile.tally (combatant1 s)]) <$> battleScores s !! "Combatant 1" /\
  battleScores (archived s) !! "Combatant 2" =
    (fun l => l ++ [Reptile.tally (combatant2 s)]) <$> battleScores s !! "Combatant 2".
Proof.
  unfold archived. cbn [battleScores set_battleScores]. split.
  - rewrite lookup_alter_ne by discriminate. apply lookup_alter_eq.
  - rewrite lookup_alter_eq, lookup_alter_ne by discriminate. reflexivity.
Qed.

Lemma as_specified_of_bound (ns : Namespace) :
  ns !! "archive_scores" = Some archive_scores -> archive_as_specified ns.
Proof. intros H f Hf s. rewrite H in Hf. injection Hf as <-. reflexivity. Qed.

(** C3: in a tick where some health is at most 0 after the edge check, both
    tallies are appended to the score history; then, if the battle index is
    below the total, the index goes up by one and both reptiles (health 100,
    spawn cell, spawn direction), the food (a fresh draw) and the orb list
    (emptied) are set up anew, the phase flags staying as they were, and
    this still holds when the tick is over; otherwise [isOver] is set.
    Hence from battle 1 of 3, a run with two battle ends stands at battle 3
    and is not over, and a run with three is over. *)
Theorem battle_end_progression (ns : Namespace) :
  ns !! "archive_scores" = Some archive_scores ->
  (forall s s1 : t,
     move_and_check_edges s = Ok s1 ->
     battle_ends s1 = true ->
     exists mid s' : t,
       end_battle ns s1 = Ok mid /\
       advance_game ns s = Ok s' /\
       battleScores mid !! "Combatant 1" =
         (fun l => l ++ [Reptile.tally (combatant1 s1)]) <$> battleScores s !! "Combatant 1" /\
       battleScores mid !! "Combatant 2" =
         (fun l => l ++ [Reptile.tally (combatant2 s1)]) <$> battleScores s !! "Combatant 2" /\
       battleScores s' = battleScores mid /\
       isInPlay s' = isInPlay s /\
       if currentBattle s <? totalRounds s
       then
         currentBattle s' = currentBattle s + 1 /\
         isOver s' = isOver s /\
         combatant1 mid = Reptile.init SPAWN1 MOVE_RIGHT COLOR_YELLOW /\
         combatant2 mid = Reptile.init SPAWN2 MOVE_LEFT COLOR_ORANGE /\
         nourishment mid = fst (generate_nourishment (world s1)) /\
         restorativeOrbs mid = [] /\
         Reptile.vitality (combatant1 s') = 100 /\
         Reptile.vitality (combatant2 s') = 100 /\
         getitem0 (Reptile.segments (combatant1 s')) = Ok SPAWN1 /\
         getitem0 (Reptile.segments (combatant2 s')) = Ok SPAWN2 /\
         Reptile.move_direction (combatant1 s') = MOVE_RIGHT /\
         Reptile.move_direction (combatant2 s') = MOVE_LEFT /\
         restorativeOrbs s' = []
       else
         currentBattle s' = currentBattle s /\ isOver s' = true) /\
  (forall (n : nat) (s s' : t) (k : nat),
     totalRounds s = 3 ->
     currentBattle s = 1 ->
     isOver s = false ->
     run ns n s = Ok (s', k) ->
     (k = 2%nat -> currentBattle s' = 3 /\ isOver s' = false) /\
     (k = 3%nat -> isOver s' = true)).
Proof.
  intros Hns. split.
  - intros s s1 Hm Hb.
    pose proof (move_and_check_edges_facts s s1 Hm)
      as (Hsess & _ & N1 & N2 & _).
    apply session_fields in Hsess as (P1 & O1 & T1 & B1 & S1).
    rewrite <- P1, <- O1, <- T1, <- B1, <- S1.
    destruct (archived_scores s1) as [A1 A2].
    exists (after_battle_end s1).
    destruct (after_battle_end_segments s1 N1 N2) as [(h1 & t1 & E1) (h2 & t2 & E2)].
    destruct (interaction_checks_ok _ h1 h2 t1 t2 E1 E2)
      as (s' & Hi & Hsess' & Ho & (e1 & F1) & (e2 & F2) & D1 & D2 & V1 & V2 & _).
    exists s'.
    split; [apply end_battle_ok, Hns|].
    split.
    { unfold advance_game. rewrite Hm. cbn [bind].
      rewrite (end_battle_ok ns s1 Hns). exact Hi. }
    apply session_fields in Hsess' as (P2 & O2 & T2 & B2 & S2).
    rewrite P2, O2, B2, S2, F1, F2, D1, D2, V1, V2, Ho.
    clear Hi P2 O2 T2 B2 S2 F1 F2 D1 D2 V1 V2 Ho.
    destruct (after_battle_end_cases s1) as [(Hb' & _)|[(_ & Hlt & Hmid)|(_ & Hge & Hmid)]];
      [congruence| |]; rewrite Hmid in *; clear Hmid.
    + rewrite (proj2 (Z.ltb_lt _ _) Hlt).
      injection E1 as <- <-. injection E2 as <- <-.
      repeat split; assumption.
    + rewrite (proj2 (Z.ltb_ge _ _) Hge).
      repeat split; assumption.
  - intros n s s' k HT HB HO Hrun.
    destruct (run_progression ns n (as_specified_of_bound ns Hns) s s' k
                ltac:(lia) Hrun) as (_ & B & O).
    rewrite B, O, HT, HB, HO.
    split; intros ->; cbn; auto.
Qed.

Lemma completed_class_bound : completed_class !! "archive_scores" = Some archive_scores.
Proof. apply lookup_singleton_eq. Qed.

Lemma battle_end_progression_witness :
  (exists s', advance_game completed_class last_stand = Ok s' /\
     currentBattle s' = 2 /\ Reptile.vitality (combatant1 s') = 100 /\
     battleScores s' !! "Combatant 1" = Some [0]) /\
  (exists s', run completed_class 416 last_stand = Ok (s', 2%nat) /\
     currentBattle s' = 3 /\ isOver s' = false) /\
  (exists s', run completed_class 831 last_stand = Ok (s', 3%nat) /\
     isOver s' = true).
Proof.
  destruct (battle_end_progression completed_class completed_class_bound) as [A B].
  split; [|split].
  - destruct (move_and_check_edges last_stand) as [s1|] eqn:E;
      [|vm_compute in E; discriminate E].
    assert (Hb : battle_ends s1 = true)
      by (vm_compute in E; injection E as <-; reflexivity).
    assert (Ht : Reptile.tally (combatant1 s1) = 0)
      by (vm_compute in E; injection E as <-; reflexivity).
    destruct (A last_stand s1 E Hb) as (mid & s' & _ & Ha & S1 & _ & S' & _ & Hif).
    change (currentBattle last_stand <? totalRounds last_stand) with true in Hif.
    destruct Hif as (Hc & _ & _ & _ & _ & _ & Hv & _).
    exists s'. split; [exact Ha|]. split; [exact Hc|]. split; [exact Hv|].
    rewrite S', S1, Ht. reflexivity.
  - assert (E : exists s', run completed_class 416 last_stand = Ok (s', 2%nat))
      by (vm_compute; eexists; reflexivity).
    destruct E as (s' & E). exists s'. split; [exact E|].
    apply (B 416%nat last_stand s' 2%nat); [reflexivity|reflexivity|reflexivity|exact E|reflexivity].
  - assert (E : exists s', run completed_class 831 last_stand = Ok (s', 3%nat))
      by (vm_compute; eexists; reflexivity).
    destruct E as (s' & E). exists s'. split; [exact E|].
    apply (B 831%nat last_stand s' 3%nat); [reflexivity|reflexivity|reflexivity|exact E|reflexivity].
Defined.

(** ** Body length *)

Lemma move_length (r r' : Reptile.t) :
  Reptile.move r = Ok r' ->
  length (Reptile.segments r') = length (Reptile.segments r).
Proof.
  intros H. apply move_inv in H as (h & t0 & E & ->).
  cbn [Reptile.segments Reptile.set_segments]. rewrite E.
  cbn [length]. f_equal. apply length_removelast_cons.
Qed.

Lemma expand_length (r r' : Reptile.t) :
  Reptile.expand r = Ok r' ->
  length (Reptile.segments r') = S (length (Reptile.segments r)).
Proof.
  unfold Reptile.expand. intros H. inv_bind H. injection H as <-.
  cbn [Reptile.segments Reptile.set_segments]. rewrite length_app. cbn [length]. lia.
Qed.

Lemma run_battle_index_monotone (ns : Namespace) (n : nat) :
  archive_as_specified ns ->
  forall (s s' : t) (k : nat),
    run ns n s = Ok (s', k) -> currentBattle s <= currentBattle s'.
Proof.
  intros Hns. induction n as [|n IH]; intros s s' k H; cbn [run] in H.
  - injection H as <- _. lia.
  - inv_bind H. inv_bind H. destruct a0 as [s2 k2]. injection H as <- _.
    cbn [fst]. specialize (IH a s2 k2 Ha0).
    pose proof (tick_facts ns s a Hns Ha) as (_ & _ & Hcase).
    destruct (tick_ends_battle s && (currentBattle s <? totalRounds s)).
    + destruct Hcase as [B _]. lia.
    + destruct Hcase as [B _]. lia.
Qed.

(** C9: over any number of ticks that stay within one battle (the battle
    index is the same at both ends), neither body gets shorter; [move] keeps
    the length and [expand] adds exactly one segment. *)
Theorem body_length_never_decreases (ns : Namespace) (n : nat) (s s' : t) (k : nat) :
  archive_as_specified ns ->
  run ns n s = Ok (s', k) ->
  currentBattle s' = currentBattle s ->
  (length (Reptile.segments (combatant1 s)) <= length (Reptile.segments (combatant1 s')))%nat /\
  (length (Reptile.segments (combatant2 s)) <= length (Reptile.segments (combatant2 s')))%nat /\
  (forall r r', Reptile.move r = Ok r' ->
     length (Reptile.segments r') = length (Reptile.segments r)) /\
  (forall r r', Reptile.expand r = Ok r' ->
     length (Reptile.segments r') = S (length (Reptile.segments r))).
Proof.
  intros Hns Hrun Hsame.
  split; [|split; [|split; [exact move_length|exact expand_length]]];
    revert s s' k Hrun Hsame.
  - induction n as [|n IH]; intros s s' k H Hsame; cbn [run] in H.
    + injection H as <- _. lia.
    + inv_bind H. inv_bind H. destruct a0 as [s2 k2]. injection H as <- _.
      cbn [fst] in *.
      pose proof (run_battle_index_monotone ns n Hns a s2 k2 Ha0) as Hmono.
      pose proof (tick_facts ns s a Hns Ha) as (_ & _ & Hcase).
      destruct (tick_ends_battle s && (currentBattle s <? totalRounds s)).
      * destruct Hcase as [B _]. lia.
      * destruct Hcase as (B & _ & L1 & _).
        specialize (IH a s2 k2 Ha0 ltac:(lia)). lia.
  - induction n as [|n IH]; intros s s' k H Hsame; cbn [run] in H.
    + injection H as <- _. lia.
    + inv_bind H. inv_bind H. destruct a0 as [s2 k2]. injection H as <- _.
      cbn [fst] in *.
      pose proof (run_battle_index_monotone ns n Hns a s2 k2 Ha0) as Hmono.
      pose proof (tick_facts ns s a Hns Ha) as (_ & _ & Hcase).
      destruct (tick_ends_battle s && (currentBattle s <? totalRounds s)).
      * destruct Hcase as [B _]. lia.
      * destruct Hcase as (B & _ & _ & L2).
        specialize (IH a s2 k2 Ha0 ltac:(lia)). lia.
Qed.

Lemma body_length_never_decreases_witness :
  exists s',
    run written_class 3 feeding = Ok (s', 0%nat) /\
    length (Reptile.segments (combatant1 feeding)) = 1%nat /\
    length (Reptile.segments (combatant1 s')) = 2%nat /\
    (length (Reptile.segments (combatant1 feeding))
       <= length (Reptile.segments (combatant1 s')))%nat.
Proof.
  assert (E : exists s', run written_class 3 feeding = Ok (s', 0%nat) /\
                         length (Reptile.segments (combatant1 s')) = 2%nat)
    by (vm_compute; eexists; split; reflexivity).
  destruct E as (s' & E & L). exists s'.
  split; [exact E|]. split; [reflexivity|]. split; [exact L|].
  apply (body_length_never_decreases written_class 3 feeding s' 0).
  - exact written_class_as_specified.
  - exact E.
  - assert (B : exists s2, run written_class 3 feeding = Ok (s2, 0%nat) /\
                           currentBattle s2 = 1)
      by (vm_compute; eexists; split; reflexivity).
    destruct B as (s2 & E2 & B). rewrite E in E2. injection E2 as <-. exact B.
Defined.

(** ** The checks after a battle end *)

(** C4, as the code has it: in a tick where some health is at most 0 after
    the edge check, the battle-end sequence runs and the orb scan, the
    collision check and the food check are then carried out, in that tick,
    on the state the sequence left: orbs on a head are consumed, a head
    inside the other body costs 5, and food under the head of reptile 1 is
    eaten. *)
Theorem checks_follow_battle_end (ns : Namespace) (s s1 : t) :
  ns !! "archive_scores" = Some archive_scores ->
  move_and_check_edges s = Ok s1 ->
  battle_ends s1 = true ->
  exists (mid s' : t) (h1 h2 : Point) (t1 t2 : list Point),
    end_battle ns s1 = Ok mid /\
    mid = after_battle_end s1 /\
    advance_game ns s = Ok s' /\
    interaction_checks mid = Ok s' /\
    Reptile.segments (combatant1 mid) = h1 :: t1 /\
    Reptile.segments (combatant2 mid) = h2 :: t2 /\
    restorativeOrbs s' = orbs_off h1 h2 (restorativeOrbs mid) /\
    Reptile.vitality (combatant1 s') =
      heal_times (length (orbs_at h1 (restorativeOrbs mid)))
                 (Reptile.vitality (combatant1 mid))
      - (if bool_decide (h1 ∈ h2 :: t2) then 5 else 0) /\
    Reptile.vitality (combatant2 s') =
      heal_times
        (length (orbs_at h2
           (filter (fun o => VitalityOrb.coordinates o <> h1) (restorativeOrbs mid))))
        (Reptile.vitality (combatant2 mid))
      - (if bool_decide (h2 ∈ h1 :: t1) then 5 else 0) /\
    (nourishment mid = h1 ->
       Reptile.tally (combatant1 s') = Reptile.tally (combatant1 mid) + 5 /\
       length (Reptile.segments (combatant1 s')) = S (length (h1 :: t1))).
Proof.
  intros Hns Hm Hb.
  pose proof (move_and_check_edges_facts s s1 Hm) as (_ & _ & N1 & N2 & _).
  destruct (after_battle_end_segments s1 N1 N2) as [(h1 & t1 & E1) (h2 & t2 & E2)].
  destruct (interaction_checks_ok _ h1 h2 t1 t2 E1 E2)
    as (s' & Hi & _ & Ho & _ & _ & _ & _ & V1 & V2 & F).
  exists (after_battle_end s1), s', h1, h2, t1, t2.
  split; [apply end_battle_ok, Hns|].
  split; [reflexivity|].
  split.
  { unfold advance_game. rewrite Hm. cbn [bind].
    rewrite (end_battle_ok ns s1 Hns). exact Hi. }
  repeat split; try assumption; apply F; assumption.
Qed.

Lemma checks_follow_battle_end_witness :
  exists s',
    advance_game completed_class final_corner = Ok s' /\
    restorativeOrbs s' = [] /\
    Reptile.vitality (combatant1 s') = 25 /\
    Reptile.tally (combatant1 s') = 5.
Proof.
  destruct (move_and_check_edges final_corner) as [s1|] eqn:E;
    [|vm_compute in E; discriminate E].
  assert (Hb : battle_ends s1 = true)
    by (vm_compute in E; injection E as <-; reflexivity).
  destruct (checks_follow_battle_end completed_class final_corner s1
              completed_class_bound E Hb)
    as (mid & s' & h1 & h2 & t1 & t2 & _ & _ & Ha & _).
  exists s'. split; [exact Ha|].
  vm_compute in Ha. injection Ha as <-. repeat split.
Defined.

(** C4, as stated, fails: no [return] follows the battle-end branch.  In
    the tick that ends the only battle of [final_corner] the session is
    declared over and, in the same tick, reptile 1 (health -5) still takes
    the orb on its cell (health 25) and eats the food (tally 5, length 2). *)
Lemma checks_not_skipped_at_battle_end :
  exists s1 mid s',
    move_and_check_edges final_corner = Ok s1 /\
    battle_ends s1 = true /\
    end_battle completed_class s1 = Ok mid /\
    advance_game completed_class final_corner = Ok s' /\
    isOver mid = true /\
    restorativeOrbs mid = [VitalityOrb.mk 0 (mkPoint 0 0)] /\
    restorativeOrbs s' = [] /\
    Reptile.vitality (combatant1 mid) = -5 /\
    Reptile.vitality (combatant1 s') = 25 /\
    Reptile.tally (combatant1 mid) = 0 /\
    Reptile.tally (combatant1 s') = 5 /\
    length (Reptile.segments (combatant1 mid)) = 1%nat /\
    length (Reptile.segments (combatant1 s')) = 2%nat /\
    s' <> mid.
Proof.
  do 3 eexists.
  split; [vm_compute; reflexivity|].
  split; [reflexivity|].
  split; [vm_compute; reflexivity|].
  split; [vm_compute; reflexivity|].
  repeat split.
  intros [= ].
Qed.

(** ** Round-count entry *)

Lemma py_int_raises_ValueError (text : string) (e : exn) :
  py_int text = Raise e -> e = ValueError.
Proof.
  unfold py_int.
  destruct (match rev (lstrip (rev (lstrip (list_ascii_of_string text)))) with
            | [] => _ | _ => _ end); [|congruence].
  destruct (_ <? _)%nat; congruence.
Qed.

(** C6, as the code has it, for whatever [int] does on the entered text.
    A confirmation whose text [int] rejects with [ValueError] is discarded:
    the buffer is emptied, no other attribute changes, so no phase
    transition occurs and play does not start, and no exception leaves
    [manage_interactions].  A confirmation whose text [int] turns into [n]
    sets the total to [n], whatever its sign, empties the buffer, closes the
    prompt and starts play. *)
Theorem confirmation_follows_int
  (py : Builtins) (ns : Namespace) (s : t) (pos : Z * Z) :
  isAcceptingInput s = true ->
  clicked "confirm" pos s = true ->
  (builtin_int py (enteredText s) = Raise ValueError ->
   manage_interactions_with py ns [MOUSEBUTTONDOWN pos] s
     = Ok (set_enteredText EmptyString s) /\
   session (set_enteredText EmptyString s) =
     (isActive s, isInPlay s, isPaused s, isOver s, scoresReady s, totalRounds s,
      currentBattle s, isAcceptingInput s, EmptyString, battleScores s, controls s)) /\
  (forall n : Z,
     builtin_int py (enteredText s) = Ok n ->
     manage_interactions_with py ns [MOUSEBUTTONDOWN pos] s
       = Ok (set_isInPlay true
               (set_isAcceptingInput false
                  (set_enteredText EmptyString (set_totalRounds n s)))) /\
     session (set_isInPlay true
                (set_isAcceptingInput false
                   (set_enteredText EmptyString (set_totalRounds n s)))) =
       (isActive s, true, isPaused s, isOver s, scoresReady s, n,
        currentBattle s, false, EmptyString, battleScores s, controls s)).
Proof.
  intros Hacc Hclick.
  split; [intros Hbad | intros n Hgood]; (split; [|reflexivity]);
    cbn [manage_interactions_with handle_event_with]; rewrite Hacc, Hclick;
    unfold confirm_rounds_with; [rewrite Hbad | rewrite Hgood]; reflexivity.
Qed.

Lemma confirmation_follows_int_witness :
  manage_interactions written_class [MOUSEBUTTONDOWN (600, 520)] (configuring EmptyString)
    = Ok (set_enteredText EmptyString (configuring EmptyString)) /\
  isInPlay (set_enteredText EmptyString (configuring EmptyString)) = false /\
  manage_interactions written_class [MOUSEBUTTONDOWN (600, 520)] (configuring "042")
    = Ok (set_isInPlay true
            (set_isAcceptingInput false
               (set_enteredText EmptyString (set_totalRounds 42 (configuring "042"))))).
Proof.
  assert (Hclick : forall text, clicked "confirm" (600, 520) (configuring text) = true)
    by (intros text; vm_compute; reflexivity).
  destruct (confirmation_follows_int ascii_builtins written_class
              (configuring EmptyString) (600, 520) eq_refl (Hclick _)) as [Hbad _].
  destruct (confirmation_follows_int ascii_builtins written_class
              (configuring "042") (600, 520) eq_refl (Hclick _)) as [_ Hgood].
  destruct (Hbad eq_refl) as [H1 _].
  destruct (Hgood 42 eq_refl) as [H2 _].
  split; [exact H1|]. split; [reflexivity|exact H2].
Defined.

(** C6, as stated, fails for the text "0": [int("0")] is 0, the [try] block
    has no test of the sign, so the total is set to 0 and play starts. *)
Lemma zero_rounds_starts_play :
  py_int "0" = Ok 0 /\
  exists s',
    manage_interactions written_class
      [KEYDOWN (K_other 48) "0"; MOUSEBUTTONDOWN (600, 520)] (configuring EmptyString) = Ok s' /\
    isInPlay (configuring EmptyString) = false /\
    isInPlay s' = true /\
    isAcceptingInput s' = false /\
    totalRounds s' = 0 /\
    enteredText s' = EmptyString.
Proof.
  split; [reflexivity|].
  eexists. split; [vm_compute; reflexivity|].
  repeat split.
Qed.

(** ** Steering *)

(** One key event never turns a reptile round: the chain of [steer1] (and
    of [steer2]) tests the direction the reptile has when the event is
    handled. *)
Lemma steer1_not_opposite (key : Key) (r : Reptile.t) :
  Reptile.move_direction r ∈ [MOVE_RIGHT; MOVE_LEFT; MOVE_DOWN; MOVE_UP] ->
  Reptile.move_direction (steer1 key r) <> opposite (Reptile.move_direction r).
Proof.
  destruct r as [segs d tint v tl]. cbn [Reptile.move_direction].
  intros Hd. set_unfold.
  destruct Hd as [->|[->|[->|[->|[]]]]]; destruct key; vm_compute; discriminate.
Qed.

Lemma steer2_not_opposite (key : Key) (r : Reptile.t) :
  Reptile.move_direction r ∈ [MOVE_RIGHT; MOVE_LEFT; MOVE_DOWN; MOVE_UP] ->
  Reptile.move_direction (steer2 key r) <> opposite (Reptile.move_direction r).
Proof.
  destruct r as [segs d tint v tl]. cbn [Reptile.move_direction].
  intros Hd. set_unfold.
  destruct Hd as [->|[->|[->|[->|[]]]]]; destruct key; vm_compute; discriminate.
Qed.

(** C7 on the code: two key events handled by one call of
    [manage_interactions] reverse reptile 1.  It heads right; W is accepted
    (up is not opposite to right), then A is accepted (left is not opposite
    to up): the call ends with the reptile heading left, and the next [move]
    takes it onto the cell it came from. *)
Theorem two_keys_reverse_in_one_tick :
  exists s',
    manage_interactions written_class [KEYDOWN K_w "w"; KEYDOWN K_a "a"] playing = Ok s' /\
    Reptile.move_direction (combatant1 playing) = MOVE_RIGHT /\
    Reptile.move_direction (combatant1 s') = MOVE_LEFT /\
    Reptile.move_direction (combatant1 s') = opposite (Reptile.move_direction (combatant1 playing)).
Proof.
  eexists. split; [vm_compute; reflexivity|]. repeat split.
Qed.

(** ** No exception in normal operation *)

(** With [archive_scores] bound, ticks started with two non-empty bodies
    always return and leave two non-empty bodies. *)
Lemma advance_game_total (ns : Namespace) (s : t) :
  ns !! "archive_scores" = Some archive_scores ->
  (exists h tl, Reptile.segments (combatant1 s) = h :: tl) ->
  (exists h tl, Reptile.segments (combatant2 s) = h :: tl) ->
  exists s',
    advance_game ns s = Ok s' /\
    (exists h tl, Reptile.segments (combatant1 s') = h :: tl) /\
    (exists h tl, Reptile.segments (combatant2 s') = h :: tl).
Proof.
  intros Hns (h1 & t1 & E1) (h2 & t2 & E2).
  destruct (move_and_check_edges_ok s h1 h2 t1 t2 E1 E2)
    as (c1 & c2 & s1 & _ & _ & Hm & _).
  pose proof (move_and_check_edges_facts s s1 Hm) as (_ & _ & N1 & N2 & _).
  destruct (after_battle_end_segments s1 N1 N2) as [(h1' & t1' & F1) (h2' & t2' & F2)].
  destruct (interaction_checks_ok _ h1' h2' t1' t2' F1 F2)
    as (s' & Hi & _ & _ & (e1 & G1) & (e2 & G2) & _).
  exists s'. split.
  - unfold advance_game. rewrite Hm. cbn [bind].
    rewrite (end_battle_ok ns s1 Hns). exact Hi.
  - rewrite G1, G2. cbn [app]. eauto 6.
Qed.

Lemma run_total (ns : Namespace) (n : nat) :
  ns !! "archive_scores" = Some archive_scores ->
  forall s : t,
    (exists h tl, Reptile.segments (combatant1 s) = h :: tl) ->
    (exists h tl, Reptile.segments (combatant2 s) = h :: tl) ->
    exists s' k, run ns n s = Ok (s', k).
Proof.
  intros Hns. induction n as [|n IH]; intros s N1 N2; cbn [run].
  - eauto.
  - destruct (advance_game_total ns s Hns N1 N2) as (s1 & -> & M1 & M2).
    cbn [bind]. destruct (IH s1 M1 M2) as (s' & k & ->). cbn [bind]. eauto.
Qed.

Lemma run_returns (ns : Namespace) (n : nat) :
  ns !! "archive_scores" = Some archive_scores ->
  forall s : t,
    bodies_non_empty s ->
    exists s' k, run ns n s = Ok (s', k) /\ bodies_non_empty s'.
Proof.
  intros Hns. induction n as [|n IH]; intros s N; cbn [run].
  - eauto.
  - destruct N as [N1 N2].
    destruct (advance_game_total ns s Hns N1 N2) as (s1 & -> & M1 & M2).
    cbn [bind]. destruct (IH s1 (conj M1 M2)) as (s' & k & -> & M). cbn [bind fst].
    eauto.
Qed.

(** The [try] block lets nothing out when [int] raises nothing but
    [ValueError]. *)
Lemma confirm_rounds_with_returns (py : Builtins) (s : t) :
  (forall text e, builtin_int py text = Raise e -> e = ValueError) ->
  exists s',
    confirm_rounds_with py s = Ok s' /\
    combatant1 s' = combatant1 s /\ combatant2 s' = combatant2 s.
Proof.
  intros Hint. unfold confirm_rounds_with.
  destruct (builtin_int py (enteredText s)) as [n|e] eqn:E.
  - eexists. split; [reflexivity|]. split; reflexivity.
  - rewrite (Hint _ _ E). eexists. split; [reflexivity|]. split; reflexivity.
Qed.

Lemma confirm_rounds_returns (s : t) : exists s', confirm_rounds s = Ok s'.
Proof.
  destruct (confirm_rounds_with_returns ascii_builtins s) as (s' & H & _).
  - intros text e. apply py_int_raises_ValueError.
  - exists s'. exact H.
Qed.

Lemma init_bodies_non_empty (w : World) : bodies_non_empty (init w).
Proof. split; do 2 eexists; reflexivity. Qed.

Lemma restart_battle_returns (s : t) :
  exists s', restart_battle s = Ok s' /\ bodies_non_empty s'.
Proof.
  eexists. split; [reflexivity|].
  split; do 2 eexists; reflexivity.
Qed.

(** An event can only fail inside the call of [restart_battle]. *)
Lemma handle_event_with_raises
  (py : Builtins) (ns : Namespace) (s : t) (e : Event) (x : exn) :
  (forall text e, builtin_int py text = Raise e -> e = ValueError) ->
  handle_event_with py ns s e = Raise x ->
  call_method ns "restart_battle" s = Raise x.
Proof.
  intros Hint.
  destruct e as [|pos|key unicode|]; cbn [handle_event_with]; try discriminate.
  - destruct (isAcceptingInput s).
    + destruct (clicked "confirm" pos s); [|discriminate].
      destruct (confirm_rounds_with_returns py s Hint) as (s' & -> & _). discriminate.
    + destruct (clicked "initiate" pos s); [discriminate|].
      destruct (isOver s).
      * destruct (clicked "replay" pos s); [auto|].
        destruct (clicked "end" pos s); discriminate.
      * cbn [negb andb]. rewrite andb_true_r.
        destruct (negb (isInPlay s)); [|discriminate].
        destruct (clicked "end" pos s); discriminate.
  - repeat (match goal with
            | |- context [if ?c then _ else _] => destruct c
            end; try discriminate).
Qed.

Lemma handle_event_raises (ns : Namespace) (s : t) (e : Event) (x : exn) :
  handle_event ns s e = Raise x ->
  call_method ns "restart_battle" s = Raise x.
Proof.
  apply handle_event_with_raises. intros text e'. apply py_int_raises_ValueError.
Qed.

Lemma steer1_segments (key : Key) (r : Reptile.t) :
  Reptile.segments (steer1 key r) = Reptile.segments r.
Proof.
  unfold steer1.
  repeat (match goal with
          | |- context [if ?c then _ else _] => destruct c
          end; try reflexivity).
Qed.

Lemma steer2_segments (key : Key) (r : Reptile.t) :
  Reptile.segments (steer2 key r) = Reptile.segments r.
Proof.
  unfold steer2.
  repeat (match goal with
          | |- context [if ?c then _ else _] => destruct c
          end; try reflexivity).
Qed.

(** Whatever an event does, both reptiles keep a head. *)
Lemma handle_event_with_bodies
  (py : Builtins) (ns : Namespace) (s s' : t) (e : Event) :
  ns !! "restart_battle" = Some restart_battle ->
  bodies_non_empty s ->
  handle_event_with py ns s e = Ok s' ->
  bodies_non_empty s'.
Proof.
  intros Hns N.
  assert (Same : forall a : t,
             combatant1 a = combatant1 s -> combatant2 a = combatant2 s ->
             bodies_non_empty a)
    by (intros a E1 E2; unfold bodies_non_empty; rewrite E1, E2; exact N).
  assert (Steer : forall key,
             bodies_non_empty (on_combatant2 (steer2 key) (on_combatant1 (steer1 key) s))).
  { intros key. unfold bodies_non_empty.
    cbn [combatant1 combatant2 on_combatant1 on_combatant2 set_combatant1 set_combatant2].
    rewrite steer1_segments, steer2_segments. exact N. }
  destruct e as [|pos|key unicode|]; cbn [handle_event_with].
  - intros [= <-]. apply Same; reflexivity.
  - destruct (isAcceptingInput s).
    + destruct (clicked "confirm" pos s).
      * unfold confirm_rounds_with.
        destruct (builtin_int py (enteredText s)) as [n|[]]; try discriminate;
          intros [= <-]; apply Same; reflexivity.
      * intros [= <-]. exact N.
    + destruct (clicked "initiate" pos s); [intros [= <-]; apply Same; reflexivity|].
      destruct (isOver s).
      * destruct (clicked "replay" pos s).
        -- unfold call_method, Method in *. rewrite Hns.
           destruct (restart_battle_returns s) as (r & -> & Nr). intros [= <-]. exact Nr.
        -- destruct (clicked "end" pos s); intros [= <-];
             [apply Same; reflexivity | exact N].
      * cbn [negb andb]. rewrite andb_true_r.
        destruct (negb (isInPlay s)); [|intros [= <-]; exact N].
        destruct (clicked "end" pos s); intros [= <-];
          [apply Same; reflexivity | exact N].
  - destruct (isAcceptingInput s).
    + destruct (bool_decide (key = K_BACKSPACE));
        [intros [= <-]; apply Same; reflexivity|].
      destruct (builtin_isdigit py unicode); intros [= <-];
        [apply Same; reflexivity | exact N].
    + destruct (isInPlay s && negb (isPaused s)); intros [= <-];
        [apply Steer | exact N].
  - intros [= <-]. exact N.
Qed.

Lemma manage_interactions_with_returns
  (py : Builtins) (ns : Namespace) (events : list Event) :
  (forall text e, builtin_int py text = Raise e -> e = ValueError) ->
  ns !! "restart_battle" = Some restart_battle ->
  forall s : t,
    bodies_non_empty s ->
    exists s', manage_interactions_with py ns events s = Ok s' /\ bodies_non_empty s'.
Proof.
  intros Hint Hns. induction events as [|e events IH]; intros s N;
    cbn [manage_interactions_with].
  - eauto.
  - destruct (handle_event_with py ns s e) as [s1|x] eqn:E.
    + cbn [bind]. apply IH. exact (handle_event_with_bodies py ns s s1 e Hns N E).
    + pose proof (handle_event_with_raises py ns s e x Hint E) as R.
      unfold call_method, Method in *. rewrite Hns in R.
      destruct (restart_battle_returns s) as (r & Hr & _). congruence.
Qed.

(** C8, with the two absent methods as the spec words them: no sequence of
    event batches and ticks raises an exception.  In particular the
    battle-end branch of a tick completes, archiving included, and so does
    the click on the replay button, which runs the session restart.  [int]
    is taken to raise nothing but [ValueError], which the [try] block
    catches; both reptiles have a head, as they do from [__init__] on. *)
Theorem normal_operation_raises_nothing (py : Builtins) (ns : Namespace) (s : t) :
  (forall text e, builtin_int py text = Raise e -> e = ValueError) ->
  ns !! "archive_scores" = Some archive_scores ->
  ns !! "restart_battle" = Some restart_battle ->
  bodies_non_empty s ->
  (forall script : list Step,
     exists s', play_with py ns script s = Ok s' /\ bodies_non_empty s') /\
  (forall s1 : t,
     move_and_check_edges s = Ok s1 ->
     battle_ends s1 = true ->
     end_battle ns s1 = Ok (after_battle_end s1) /\
     exists s', advance_game ns s = Ok s') /\
  (forall pos : Z * Z,
     isAcceptingInput s = false ->
     clicked "initiate" pos s = false ->
     isOver s = true ->
     clicked "replay" pos s = true ->
     exists s',
       restart_battle s = Ok s' /\
       manage_interactions_with py ns [MOUSEBUTTONDOWN pos] s = Ok s').
Proof.
  intros Hint Ha Hr N. split; [|split].
  - intros script. revert s N.
    induction script as [|[events|n] rest IH]; intros s N; cbn [play_with].
    + eauto.
    + destruct (manage_interactions_with_returns py ns events Hint Hr s N)
        as (s1 & -> & N1).
      cbn [bind]. apply IH. exact N1.
    + destruct (run_returns ns n Ha s N) as (s1 & k & -> & N1).
      cbn [bind fst]. apply IH. exact N1.
  - intros s1 Hm Hb. split; [exact (end_battle_ok ns s1 Ha)|].
    destruct N as [N1 N2].
    destruct (advance_game_total ns s Ha N1 N2) as (s' & H & _). eauto.
  - intros pos Hacc Hinit Hover Hreplay.
    destruct (restart_battle_returns s) as (r & Hres & _).
    exists r. split; [exact Hres|].
    cbn [manage_interactions_with handle_event_with].
    rewrite Hacc, Hinit, Hover, Hreplay.
    unfold call_method, Method in *. rewrite Hr, Hres. reflexivity.
Qed.

Lemma session_class_bound :
  session_class !! "archive_scores" = Some archive_scores /\
  session_class !! "restart_battle" = Some restart_battle.
Proof. split; reflexivity. Qed.

Lemma normal_operation_raises_nothing_witness :
  exists s1 s2,
    play session_class [Ticks 1] final_corner = Ok s1 /\
    isOver s1 = true /\
    battleScores s1 !! "Combatant 1" = Some [0] /\
    play session_class [Ticks 1; Keys [MOUSEBUTTONDOWN (600, 370)]] final_corner = Ok s2 /\
    isOver s2 = false /\
    isAcceptingInput s2 = true /\
    currentBattle s2 = 1 /\
    battleScores s2 !! "Combatant 1" = Some [].
Proof.
  assert (Hint : forall text e, builtin_int ascii_builtins text = Raise e -> e = ValueError)
    by (intros text e; apply py_int_raises_ValueError).
  assert (N : bodies_non_empty final_corner)
    by (split; do 2 eexists; reflexivity).
  destruct session_class_bound as [Ha Hr].
  destruct (normal_operation_raises_nothing ascii_builtins session_class final_corner
              Hint Ha Hr N) as (Hplay & _ & _).
  destruct (Hplay [Ticks 1]) as (s1 & H1 & _).
  destruct (Hplay [Ticks 1; Keys [MOUSEBUTTONDOWN (600, 370)]]) as (s2 & H2 & _).
  exists s1, s2.
  split; [exact H1|].
  vm_compute in H1. injection H1 as <-.
  split; [reflexivity|]. split; [reflexivity|].
  split; [exact H2|].
  vm_compute in H2. injection H2 as <-.
  repeat split.
Defined.

(** * Further properties of the code *)

(** ** reptile.py *)

(** X1: a reptile without segments makes every method of [Reptile] raise
    [IndexError]; with at least one segment none of them raises. *)
Theorem reptile_methods_need_a_body (r : Reptile.t) (item : Point) :
  (Reptile.segments r = [] ->
   Reptile.move r = Raise IndexError /\
   Reptile.expand r = Raise IndexError /\
   Reptile.detect_collision r item = Raise IndexError /\
   Reptile.detect_self_impact r = Raise IndexError) /\
  (Reptile.segments r <> [] ->
   is_ok (Reptile.move r) = true /\
   is_ok (Reptile.expand r) = true /\
   is_ok (Reptile.detect_collision r item) = true /\
   is_ok (Reptile.detect_self_impact r) = true).
Proof.
  unfold Reptile.move, Reptile.expand, Reptile.detect_collision,
    Reptile.detect_self_impact.
  split; intros H.
  - rewrite H. repeat split.
  - destruct (Reptile.segments r) as [|h tl] eqn:E; [contradiction|].
    destruct (getitem_last_cons h tl) as (b & ->).
    repeat split.
Qed.

Lemma reptile_methods_need_a_body_witness :
  Reptile.move (Reptile.set_segments [] edge_runner) = Raise IndexError /\
  is_ok (Reptile.expand edge_runner) = true.
Proof.
  split.
  - apply (proj1 (reptile_methods_need_a_body
                    (Reptile.set_segments [] edge_runner) (mkPoint 0 0))).
    reflexivity.
  - apply (proj2 (reptile_methods_need_a_body edge_runner (mkPoint 0 0))).
    discriminate.
Defined.

Lemma removelast_snoc {A : Type} (l : list A) (a : A) : removelast (l ++ [a]) = l.
Proof. apply removelast_last. Qed.

Lemma expand_inv (r r' : Reptile.t) :
  Reptile.expand r = Ok r' ->
  exists tl,
    last (Reptile.segments r) = Some tl /\
    r' = Reptile.set_segments (Reptile.segments r ++ [tl]) r.
Proof.
  unfold Reptile.expand, getitem_last. intros H.
  destruct (last (Reptile.segments r)) as [tl|]; [|discriminate].
  cbn [bind] in H. injection H as <-. eauto.
Qed.

(** X2: growth shows on the next move.  [expand] repeats the tail cell at
    the end of the body; the [move] that follows puts the new head in front
    and drops only the repeated cell, so the whole former body is kept
    behind the new head. *)
Theorem growth_shows_on_next_move (r r1 r2 : Reptile.t) (head : Point) (rest : list Point) :
  Reptile.segments r = head :: rest ->
  Reptile.expand r = Ok r1 ->
  Reptile.move r1 = Ok r2 ->
  last (Reptile.segments r1) = last (Reptile.segments r) /\
  Reptile.segments r1 !! length (Reptile.segments r) = last (Reptile.segments r) /\
  Reptile.segments r2 =
    Reptile.new_head head (Reptile.move_direction r) :: Reptile.segments r /\
  length (Reptile.segments r2) = S (length (Reptile.segments r)).
Proof.
  intros Hs He Hm.
  apply expand_inv in He as (tl & Hl & ->).
  cbn [Reptile.segments Reptile.set_segments] in *.
  apply move_inv in Hm as (h & t0 & E & ->).
  cbn [Reptile.segments Reptile.set_segments Reptile.move_direction] in *.
  rewrite Hs in E. cbn [app] in E. injection E as <- <-.
  split; [rewrite last_snoc; symmetry; exact Hl|].
  split.
  { rewrite Hl. rewrite lookup_app_r by lia. rewrite Nat.sub_diag. reflexivity. }
  change (head :: rest ++ [tl]) with ((head :: rest) ++ [tl]).
  rewrite removelast_snoc, Hs. split; reflexivity.
Qed.

Lemma growth_shows_on_next_move_witness :
  exists r1 r2,
    Reptile.expand edge_runner = Ok r1 /\
    Reptile.move r1 = Ok r2 /\
    Reptile.segments r2 = [mkPoint 0 3; mkPoint 59 3; mkPoint 58 3].
Proof.
  exists (Reptile.set_segments [mkPoint 59 3; mkPoint 58 3; mkPoint 58 3] edge_runner).
  exists (Reptile.set_segments [mkPoint 0 3; mkPoint 59 3; mkPoint 58 3] edge_runner).
  split; [reflexivity|]. split; [reflexivity|].
  destruct (growth_shows_on_next_move edge_runner
              (Reptile.set_segments [mkPoint 59 3; mkPoint 58 3; mkPoint 58 3] edge_runner)
              (Reptile.set_segments [mkPoint 0 3; mkPoint 59 3; mkPoint 58 3] edge_runner)
              (mkPoint 59 3) [mkPoint 58 3])
    as (_ & _ & H & _); [reflexivity|reflexivity|reflexivity|].
  rewrite H. reflexivity.
Defined.

(** X3: [detect_self_impact] looks for the head among the later segments.
    A one-segment reptile never reports an impact; once it has grown it
    reports one until its next move, because [expand] put a copy of the
    head cell behind the head. *)
Theorem self_impact_of_short_reptiles (r r1 : Reptile.t) (head : Point) :
  Reptile.segments r = [head] ->
  Reptile.expand r = Ok r1 ->
  Reptile.detect_self_impact r = Ok false /\
  Reptile.detect_self_impact r1 = Ok true.
Proof.
  intros Hs He. apply expand_inv in He as (tl & Hl & ->).
  rewrite Hs in Hl. cbn in Hl. injection Hl as <-.
  unfold Reptile.detect_self_impact.
  cbn [Reptile.segments Reptile.set_segments]. rewrite Hs.
  cbn [getitem0 bind app drop]. split.
  - rewrite bool_decide_eq_false_2 by apply not_elem_of_nil. reflexivity.
  - rewrite bool_decide_eq_true_2 by left. reflexivity.
Qed.

Lemma self_impact_of_short_reptiles_witness :
  Reptile.detect_self_impact (Reptile.init SPAWN1 MOVE_RIGHT COLOR_YELLOW) = Ok false /\
  Reptile.detect_self_impact
    (Reptile.set_segments [SPAWN1; SPAWN1] (Reptile.init SPAWN1 MOVE_RIGHT COLOR_YELLOW))
    = Ok true.
Proof.
  apply (self_impact_of_short_reptiles
           (Reptile.init SPAWN1 MOVE_RIGHT COLOR_YELLOW)
           (Reptile.set_segments [SPAWN1; SPAWN1]
              (Reptile.init SPAWN1 MOVE_RIGHT COLOR_YELLOW))
           SPAWN1); reflexivity.
Defined.

(** ** A tick, step by step *)

Lemma replenish_detail (s : t) :
  (restorativeOrbs (replenish_vitality_orbs s) = restorativeOrbs s /\
   lastOrbRegen (replenish_vitality_orbs s) = lastOrbRegen s /\
   allocs (world (replenish_vitality_orbs s)) = allocs (world s) /\
   Qle_bool ORB_RESPAWN_TIME (wall_clock (world s) (reads (world s)) - lastOrbRegen s)
     = false) \/
  (exists orb,
     restorativeOrbs (replenish_vitality_orbs s) = restorativeOrbs s ++ [orb] /\
     in_grid (VitalityOrb.coordinates orb) /\
     VitalityOrb.ident orb = allocs (world s) /\
     allocs (world (replenish_vitality_orbs s)) = S (allocs (world s)) /\
     lastOrbRegen (replenish_vitality_orbs s) = wall_clock (world s) (reads (world s)) /\
     Qle_bool ORB_RESPAWN_TIME (wall_clock (world s) (reads (world s)) - lastOrbRegen s)
       = true).
Proof.
  unfold replenish_vitality_orbs, time_time.
  cbn [world set_world lastOrbRegen].
  destruct (Qle_bool _ _); [right|left; repeat split].
  eexists. cbn. repeat split.
  all: change (DISPLAY_WIDTH `div` REPTILE_DIMENSION - 1 - 0 + 1) with 60;
    change (DISPLAY_HEIGHT `div` REPTILE_DIMENSION - 1 - 0 + 1) with 45;
    change GRID_W with 60; change GRID_H with 45.
  all: cbn [px py VitalityOrb.coordinates].
  all: pose proof (Z.mod_pos_bound (entropy (world s) (draws (world s))) 60);
    pose proof (Z.mod_pos_bound (entropy (world s) (S (draws (world s)))) 45); lia.
Qed.

Lemma eat1_detail (s : t) (h1 : Point) (t1 : list Point) :
  Reptile.segments (combatant1 s) = h1 :: t1 ->
  exists s' e,
    eat1 s = Ok s' /\
    combatant2 s' = combatant2 s /\
    restorativeOrbs s' = restorativeOrbs s /\
    allocs (world s') = allocs (world s) /\
    session s' = session s /\
    Reptile.segments (combatant1 s') = (h1 :: t1) ++ e /\
    (e = [] \/ exists tl, e = [tl] /\ last (h1 :: t1) = Some tl) /\
    Reptile.tally (combatant1 s') = Reptile.tally (combatant1 s) + 5 * Z.of_nat (length e) /\
    Reptile.vitality (combatant1 s') = Reptile.vitality (combatant1 s) /\
    Reptile.move_direction (combatant1 s') = Reptile.move_direction (combatant1 s) /\
    (nourishment s' = nourishment s \/ in_grid (nourishment s')).
Proof.
  intros H1. unfold eat1.
  rewrite (detect_collision_ok _ _ _ _ H1). cbn [bind].
  destruct (bool_decide (nourishment s = h1)).
  - pose proof (generate_nourishment_in_grid (world s)) as G.
    destruct (generate_nourishment (world s)) as [food w] eqn:Hg.
    assert (Hw : allocs w = allocs (world s)).
    { unfold generate_nourishment, randint in Hg. injection Hg as _ <-. reflexivity. }
    unfold Reptile.expand, getitem_last.
    cbn [on_combatant1 combatant1 set_combatant1 set_nourishment set_world
         Reptile.segments Reptile.set_tally].
    rewrite H1. destruct (last (h1 :: t1)) as [tl|] eqn:Hl;
      [|apply last_None in Hl; discriminate].
    cbn [bind]. eexists _, [tl]. split; [reflexivity|].
    cbn [combatant1 combatant2 set_combatant1 restorativeOrbs world nourishment
         Reptile.segments Reptile.set_segments Reptile.tally Reptile.vitality
         Reptile.move_direction length fst] in *.
    repeat split; try assumption; try reflexivity.
    + right. eauto.
    + right. unfold in_grid, GRID_W, GRID_H in *. cbn in G |- *. lia.
  - exists s, []. rewrite app_nil_r. cbn [length]. repeat split; auto; lia.
Qed.

Lemma eat2_detail (s : t) (h2 : Point) (t2 : list Point) :
  Reptile.segments (combatant2 s) = h2 :: t2 ->
  exists s' e,
    eat2 s = Ok s' /\
    combatant1 s' = combatant1 s /\
    restorativeOrbs s' = restorativeOrbs s /\
    allocs (world s') = allocs (world s) /\
    session s' = session s /\
    Reptile.segments (combatant2 s') = (h2 :: t2) ++ e /\
    (e = [] \/ exists tl, e = [tl] /\ last (h2 :: t2) = Some tl) /\
    Reptile.tally (combatant2 s') = Reptile.tally (combatant2 s) + 5 * Z.of_nat (length e) /\
    Reptile.vitality (combatant2 s') = Reptile.vitality (combatant2 s) /\
    Reptile.move_direction (combatant2 s') = Reptile.move_direction (combatant2 s) /\
    (nourishment s' = nourishment s \/ in_grid (nourishment s')).
Proof.
  intros H2. unfold eat2.
  rewrite (detect_collision_ok _ _ _ _ H2). cbn [bind].
  destruct (bool_decide (nourishment s = h2)).
  - pose proof (generate_nourishment_in_grid (world s)) as G.
    destruct (generate_nourishment (world s)) as [food w] eqn:Hg.
    assert (Hw : allocs w = allocs (world s)).
    { unfold generate_nourishment, randint in Hg. injection Hg as _ <-. reflexivity. }
    unfold Reptile.expand, getitem_last.
    cbn [on_combatant2 combatant2 set_combatant2 set_nourishment set_world
         Reptile.segments Reptile.set_tally].
    rewrite H2. destruct (last (h2 :: t2)) as [tl|] eqn:Hl;
      [|apply last_None in Hl; discriminate].
    cbn [bind]. eexists _, [tl]. split; [reflexivity|].
    cbn [combatant1 combatant2 set_combatant2 restorativeOrbs world nourishment
         Reptile.segments Reptile.set_segments Reptile.tally Reptile.vitality
         Reptile.move_direction length fst] in *.
    repeat split; try assumption; try reflexivity.
    + right. eauto.
    + right. unfold in_grid, GRID_W, GRID_H in *. cbn in G |- *. lia.
  - exists s, []. rewrite app_nil_r. cbn [length]. repeat split; auto; lia.
Qed.

Lemma first_half_detail (s s1 : t) :
  move_and_check_edges s = Ok s1 ->
  exists h1 t1 h2 t2,
    Reptile.segments (combatant1 s) = h1 :: t1 /\
    Reptile.segments (combatant2 s) = h2 :: t2 /\
    Reptile.segments (combatant1 s1) =
      Reptile.new_head h1 (Reptile.move_direction (combatant1 s)) :: removelast (h1 :: t1) /\
    Reptile.segments (combatant2 s1) =
      Reptile.new_head h2 (Reptile.move_direction (combatant2 s)) :: removelast (h2 :: t2) /\
    Reptile.tally (combatant1 s1) = Reptile.tally (combatant1 s) /\
    Reptile.tally (combatant2 s1) = Reptile.tally (combatant2 s) /\
    Reptile.move_direction (combatant1 s1) = Reptile.move_direction (combatant1 s) /\
    Reptile.move_direction (combatant2 s1) = Reptile.move_direction (combatant2 s) /\
    nourishment s1 = nourishment s /\
    restorativeOrbs s1 = restorativeOrbs (replenish_vitality_orbs s) /\
    world s1 = world (replenish_vitality_orbs s).
Proof.
  intros H.
  destruct (move_and_check_edges_inv s s1 H) as (h1 & t1 & h2 & t2 & E1 & E2).
  destruct (move_and_check_edges_ok s h1 h2 t1 t2 E1 E2)
    as (c1 & c2 & s1' & M1 & M2 & Hs1 & C1 & C2 & Hn & Ho & Hw & _).
  rewrite H in Hs1. injection Hs1 as <-.
  rewrite (move_ok _ _ _ E1) in M1. injection M1 as <-.
  rewrite (move_ok _ _ _ E2) in M2. injection M2 as <-.
  apply check_edges_inv in C1 as (S1 & D1 & T1 & _).
  apply check_edges_inv in C2 as (S2 & D2 & T2 & _).
  exists h1, t1, h2, t2. repeat split; assumption.
Qed.

Lemma checks_detail (mid s' : t) (g1 g2 : Point) (u1 u2 : list Point) :
  Reptile.segments (combatant1 mid) = g1 :: u1 ->
  Reptile.segments (combatant2 mid) = g2 :: u2 ->
  interaction_checks mid = Ok s' ->
  exists e1 e2,
    Reptile.segments (combatant1 s') = (g1 :: u1) ++ e1 /\
    (e1 = [] \/ exists tl, e1 = [tl] /\ last (g1 :: u1) = Some tl) /\
    Reptile.tally (combatant1 s') = Reptile.tally (combatant1 mid) + 5 * Z.of_nat (length e1) /\
    Reptile.move_direction (combatant1 s') = Reptile.move_direction (combatant1 mid) /\
    Reptile.segments (combatant2 s') = (g2 :: u2) ++ e2 /\
    (e2 = [] \/ exists tl, e2 = [tl] /\ last (g2 :: u2) = Some tl) /\
    Reptile.tally (combatant2 s') = Reptile.tally (combatant2 mid) + 5 * Z.of_nat (length e2) /\
    Reptile.move_direction (combatant2 s') = Reptile.move_direction (combatant2 mid) /\
    (nourishment s' = nourishment mid \/ in_grid (nourishment s')) /\
    restorativeOrbs s' = orbs_off g1 g2 (restorativeOrbs mid) /\
    allocs (world s') = allocs (world mid).
Proof.
  intros F1 F2 H. unfold interaction_checks in H.
  rewrite (consume_orbs_ok _ g1 g2 u1 u2 F1 F2) in H. cbn [bind] in H.
  set (a := after_orbs g1 g2 [] (restorativeOrbs mid) mid) in *.
  destruct (combatant_collisions_ok a g1 g2 u1 u2 F1 F2)
    as (b & Hb & _ & Bo & Bn & Bw & B1 & B2 & Bd1 & Bd2 & Bt1 & Bt2 & _).
  rewrite Hb in H. cbn [bind] in H.
  change (Reptile.segments (combatant1 a)) with (Reptile.segments (combatant1 mid)) in B1.
  change (Reptile.segments (combatant2 a)) with (Reptile.segments (combatant2 mid)) in B2.
  change (Reptile.tally (combatant1 a)) with (Reptile.tally (combatant1 mid)) in Bt1.
  change (Reptile.tally (combatant2 a)) with (Reptile.tally (combatant2 mid)) in Bt2.
  change (Reptile.move_direction (combatant1 a))
    with (Reptile.move_direction (combatant1 mid)) in Bd1.
  change (Reptile.move_direction (combatant2 a))
    with (Reptile.move_direction (combatant2 mid)) in Bd2.
  change (restorativeOrbs a) with (orbs_off g1 g2 (restorativeOrbs mid)) in Bo.
  change (nourishment a) with (nourishment mid) in Bn.
  change (world a) with (world mid) in Bw.
  rewrite F1 in B1. rewrite F2 in B2.
  destruct (eat1_detail b g1 u1 B1)
    as (c & e1 & Hc & C2 & Co & Cw & _ & Cs & Ce & Ct & _ & Cd & Cn).
  rewrite Hc in H. cbn [bind] in H.
  assert (C2s : Reptile.segments (combatant2 c) = g2 :: u2) by (rewrite C2; exact B2).
  destruct (eat2_detail c g2 u2 C2s)
    as (d & e2 & Hd & D1 & Do & Dw & _ & Ds & De & Dt & _ & Dd & Dn).
  rewrite Hd in H. injection H as <-.
  exists e1, e2.
  rewrite D1, Cs, Ct, Cd, Ds, Dt, Dd, C2, Bt1, Bt2, Bd1, Bd2, Do, Co, Bo, Dw, Cw, Bw.
  repeat split; try assumption; try reflexivity.
  destruct Dn as [->|Dn]; [|right; exact Dn].
  destruct Cn as [->|Cn]; [|right; exact Cn].
  left. exact Bn.
Qed.

Lemma Forall_removelast {A : Type} (P : A -> Prop) (l : list A) :
  Forall P l -> Forall P (removelast l).
Proof. intros H. rewrite removelast_firstn_len. apply Forall_take, H. Qed.

Lemma spawn_cells_in_grid : in_grid SPAWN1 /\ in_grid SPAWN2.
Proof. unfold in_grid. vm_compute. repeat split; discriminate. Qed.

Lemma after_battle_end_detail (s1 : t) :
  allocs (world (after_battle_end s1)) = allocs (world s1) /\
  ((combatant1 (after_battle_end s1) = combatant1 s1 /\
    combatant2 (after_battle_end s1) = combatant2 s1 /\
    nourishment (after_battle_end s1) = nourishment s1 /\
    restorativeOrbs (after_battle_end s1) = restorativeOrbs s1) \/
   (combatant1 (after_battle_end s1) = Reptile.init SPAWN1 MOVE_RIGHT COLOR_YELLOW /\
    combatant2 (after_battle_end s1) = Reptile.init SPAWN2 MOVE_LEFT COLOR_ORANGE /\
    in_grid (nourishment (after_battle_end s1)) /\
    restorativeOrbs (after_battle_end s1) = [])).
Proof.
  destruct (after_battle_end_cases s1) as [(_ & ->)|[(_ & _ & ->)|(_ & _ & ->)]].
  - split; [reflexivity|]. left. repeat split.
  - split; [reflexivity|]. right.
    split; [reflexivity|]. split; [reflexivity|]. split; [|reflexivity].
    pose proof (generate_nourishment_in_grid
                  (world (set_currentBattle (currentBattle s1 + 1) (archived s1)))) as G.
    unfold in_grid.
    change (nourishment (initialize_next_battle
              (set_currentBattle (currentBattle s1 + 1) (archived s1))))
      with (fst (generate_nourishment
              (world (set_currentBattle (currentBattle s1 + 1) (archived s1))))).
    lia.
  - split; [reflexivity|]. left. repeat split.
Qed.

Lemma tick_keeps_arena_in_grid (ns : Namespace) (s s' : t) :
  archive_as_specified ns ->
  advance_game ns s = Ok s' ->
  arena_in_grid s -> arena_in_grid s'.
Proof.
  intros Hns H (I1 & I2 & I3 & I4).
  apply (advance_game_inv ns s s' Hns) in H as (s1 & Hm & _ & Hi).
  destruct (first_half_detail s s1 Hm)
    as (h1 & t1 & h2 & t2 & E1 & E2 & S1 & S2 & _ & _ & _ & _ & Hn & Ho & _).
  assert (J1 : Forall in_grid (Reptile.segments (combatant1 s1))).
  { rewrite S1. constructor.
    - destruct (new_head_in_grid h1 (Reptile.move_direction (combatant1 s))).
      unfold in_grid. lia.
    - apply Forall_removelast. rewrite <- E1. exact I1. }
  assert (J2 : Forall in_grid (Reptile.segments (combatant2 s1))).
  { rewrite S2. constructor.
    - destruct (new_head_in_grid h2 (Reptile.move_direction (combatant2 s))).
      unfold in_grid. lia.
    - apply Forall_removelast. rewrite <- E2. exact I2. }
  assert (J4 : Forall (fun o => in_grid (VitalityOrb.coordinates o)) (restorativeOrbs s1)).
  { rewrite Ho. destruct (replenish_detail s) as [(-> & _)|(orb & -> & G & _)].
    - exact I4.
    - apply Forall_app. split; [exact I4|]. constructor; [exact G|constructor]. }
  assert (K : Forall in_grid (Reptile.segments (combatant1 (after_battle_end s1))) /\
              Forall in_grid (Reptile.segments (combatant2 (after_battle_end s1))) /\
              in_grid (nourishment (after_battle_end s1)) /\
              Forall (fun o => in_grid (VitalityOrb.coordinates o))
                     (restorativeOrbs (after_battle_end s1))).
  { destruct (after_battle_end_detail s1) as (_ & [(-> & -> & -> & ->)|(-> & -> & G & ->)]).
    - rewrite Hn. auto.
    - destruct spawn_cells_in_grid as [G1 G2].
      split; [apply Forall_cons; split; [exact G1|constructor]|].
      split; [apply Forall_cons; split; [exact G2|constructor]|].
      split; [exact G|constructor]. }
  set (mid := after_battle_end s1) in *.
  destruct K as (K1 & K2 & K3 & K4).
  destruct (Reptile.segments (combatant1 mid)) as [|g1 u1] eqn:F1.
  { destruct (after_battle_end_segments s1) as [(? & ? & X) _].
    - rewrite S1. eauto.
    - rewrite S2. eauto.
    - fold mid in X. rewrite F1 in X. discriminate. }
  destruct (Reptile.segments (combatant2 mid)) as [|g2 u2] eqn:F2.
  { destruct (after_battle_end_segments s1) as [_ (? & ? & X)].
    - rewrite S1. eauto.
    - rewrite S2. eauto.
    - fold mid in X. rewrite F2 in X. discriminate. }
  unfold arena_in_grid.
  destruct (checks_detail mid s' g1 g2 u1 u2 F1 F2 Hi)
    as (e1 & e2 & -> & X1 & _ & _ & -> & X2 & _ & _ & Xn & -> & _).
  split; [|split; [|split]].
  - apply Forall_app. split; [exact K1|].
    destruct X1 as [->|(tl & -> & Hl)]; [constructor|].
    constructor; [|constructor].
    apply last_Some_elem_of in Hl. rewrite Forall_forall in K1. apply K1, Hl.
  - apply Forall_app. split; [exact K2|].
    destruct X2 as [->|(tl & -> & Hl)]; [constructor|].
    constructor; [|constructor].
    apply last_Some_elem_of in Hl. rewrite Forall_forall in K2. apply K2, Hl.
  - destruct Xn as [->|Xn]; [exact K3|exact Xn].
  - unfold orbs_off. rewrite Forall_forall in K4 |- *.
    intros o Ho'. apply list_elem_of_filter in Ho' as [_ Ho']. apply K4, Ho'.
Qed.

Lemma init_arena_in_grid (w : World) : arena_in_grid (init w).
Proof.
  destruct spawn_cells_in_grid as [G1 G2].
  unfold arena_in_grid, init, time_time.
  pose proof (generate_nourishment_in_grid
                (mkWorld (entropy w) (draws w) (wall_clock w) (S (reads w)) (allocs w))) as G.
  destruct (generate_nourishment _) as [food w'] eqn:E. cbn [fst] in G.
  cbn [combatant1 combatant2 nourishment restorativeOrbs Reptile.init Reptile.segments].
  split; [apply Forall_cons; split; [exact G1|constructor]|].
  split; [apply Forall_cons; split; [exact G2|constructor]|].
  split; [unfold in_grid; lia|constructor].
Qed.

(** X4: everything that has a position stays in the grid.  If both bodies,
    the food and all orbs lie in the 60 x 45 grid, they still do after any
    number of ticks; a freshly constructed controller starts that way. *)
Theorem arena_stays_in_grid (ns : Namespace) (n : nat) (s s' : t) (k : nat) :
  archive_as_specified ns ->
  arena_in_grid s ->
  run ns n s = Ok (s', k) ->
  arena_in_grid s' /\ (forall w, arena_in_grid (init w)).
Proof.
  intros Hns I H. split; [|exact init_arena_in_grid].
  revert s s' k I H. induction n as [|n IH]; intros s s' k I H; cbn [run] in H.
  - injection H as <- _. exact I.
  - inv_bind H. inv_bind H. destruct a0 as [s2 k2]. injection H as <- _.
    cbn [fst]. apply (IH a s2 k2); [|exact Ha0].
    exact (tick_keeps_arena_in_grid ns s a Hns Ha I).
Qed.

Lemma arena_stays_in_grid_witness :
  exists s',
    run written_class 100 (set_isInPlay true (init still_world)) = Ok (s', 0%nat) /\
    arena_in_grid s'.
Proof.
  assert (E : exists s', run written_class 100 (set_isInPlay true (init still_world))
                         = Ok (s', 0%nat))
    by (vm_compute; eexists; reflexivity).
  destruct E as (s' & E). exists s'. split; [exact E|].
  apply (arena_stays_in_grid written_class 100
           (set_isInPlay true (init still_world)) s' 0).
  - exact written_class_as_specified.
  - exact (init_arena_in_grid still_world).
  - exact E.
Defined.

Lemma tick_nonempty_mid (s s1 : t) :
  move_and_check_edges s = Ok s1 ->
  exists g1 u1 g2 u2,
    Reptile.segments (combatant1 (after_battle_end s1)) = g1 :: u1 /\
    Reptile.segments (combatant2 (after_battle_end s1)) = g2 :: u2.
Proof.
  intros Hm.
  pose proof (move_and_check_edges_facts s s1 Hm) as (_ & _ & N1 & N2 & _).
  destruct (after_battle_end_segments s1 N1 N2) as [(g1 & u1 & F1) (g2 & u2 & F2)].
  eauto 8.
Qed.

Lemma NoDup_fmap_filter {A B : Type} (f : A -> B) (P : A -> Prop)
    `{!forall x, Decision (P x)} (l : list A) :
  NoDup (f <$> l) -> NoDup (f <$> filter P l).
Proof.
  induction l as [|x l IH]; [auto|].
  rewrite fmap_cons, NoDup_cons, filter_cons. intros [Hx Hl].
  destruct (decide (P x)); [|auto].
  rewrite fmap_cons, NoDup_cons. split; [|auto].
  intros Hin. apply Hx.
  apply list_elem_of_fmap in Hin as (y & -> & Hy).
  apply list_elem_of_filter in Hy as [_ Hy].
  apply list_elem_of_fmap. eauto.
Qed.

Lemma tick_keeps_orbs_distinct (ns : Namespace) (s s' : t) :
  archive_as_specified ns ->
  advance_game ns s = Ok s' ->
  orbs_distinct s -> orbs_distinct s'.
Proof.
  intros Hns H [D1 D2].
  apply (advance_game_inv ns s s' Hns) in H as (s1 & Hm & _ & Hi).
  destruct (first_half_detail s s1 Hm)
    as (_ & _ & _ & _ & _ & _ & _ & _ & _ & _ & _ & _ & _ & Ho & Hw).
  assert (J : orbs_distinct s1).
  { unfold orbs_distinct. rewrite Ho, Hw.
    destruct (replenish_detail s) as [(-> & _ & -> & _)|(orb & -> & _ & Hid & -> & _)].
    - split; assumption.
    - split.
      + rewrite fmap_app. apply NoDup_app. split; [exact D1|]. split.
        * intros i Hi' Hin. apply list_elem_of_singleton in Hin.
          apply list_elem_of_fmap in Hi' as (o & -> & Ho').
          rewrite Forall_forall in D2. specialize (D2 o Ho'). cbn in Hin. lia.
        * apply NoDup_singleton.
      + apply Forall_app. split.
        * eapply Forall_impl; [exact D2|]. cbn. intros; lia.
        * constructor; [lia|constructor]. }
  destruct (tick_nonempty_mid s s1 Hm) as (g1 & u1 & g2 & u2 & F1 & F2).
  destruct (checks_detail _ s' g1 g2 u1 u2 F1 F2 Hi)
    as (e1 & e2 & _ & _ & _ & _ & _ & _ & _ & _ & _ & Xo & Xw).
  destruct (after_battle_end_detail s1) as (Aw & A).
  unfold orbs_distinct. rewrite Xo, Xw, Aw.
  destruct J as [J1 J2].
  destruct A as [(_ & _ & _ & ->)|(_ & _ & _ & ->)].
  - split.
    + apply NoDup_fmap_filter, J1.
    + rewrite Forall_forall in J2 |- *. intros o Ho'.
      apply list_elem_of_filter in Ho' as [_ Ho']. apply J2, Ho'.
  - unfold orbs_off. rewrite filter_nil. split; constructor.
Qed.

(** X5: the orbs on the field are always distinct objects.  Identities are
    handed out once, by [replenish_vitality_orbs], so the identities of the
    active orbs are pairwise different after any number of ticks, and
    [list.remove] in the orb scan takes out exactly the orb it was given. *)
Theorem orb_identities_stay_distinct (ns : Namespace) (n : nat) (s s' : t) (k : nat) :
  archive_as_specified ns ->
  orbs_distinct s ->
  run ns n s = Ok (s', k) ->
  orbs_distinct s'.
Proof.
  intros Hns. revert s s' k. induction n as [|n IH]; intros s s' k I H; cbn [run] in H.
  - injection H as <- _. exact I.
  - inv_bind H. inv_bind H. destruct a0 as [s2 k2]. injection H as <- _.
    cbn [fst]. apply (IH a s2 k2); [|exact Ha0].
    exact (tick_keeps_orbs_distinct ns s a Hns Ha I).
Qed.

Lemma orb_identities_stay_distinct_witness :
  exists s',
    run written_class 10 (set_world busy_world playing) = Ok (s', 0%nat) /\
    length (restorativeOrbs s') = 4%nat /\
    orbs_distinct s'.
Proof.
  assert (E : exists s', run written_class 10 (set_world busy_world playing) = Ok (s', 0%nat)
                         /\ length (restorativeOrbs s') = 4%nat)
    by (vm_compute; eexists; split; reflexivity).
  destruct E as (s' & E & L). exists s'. split; [exact E|]. split; [exact L|].
  apply (orb_identities_stay_distinct written_class 10 (set_world busy_world playing) s' 0).
  - exact written_class_as_specified.
  - split; constructor.
  - exact E.
Defined.

Lemma tick_keeps_score_matching (ns : Namespace) (s s' : t) :
  archive_as_specified ns ->
  advance_game ns s = Ok s' ->
  score_matches_length (combatant1 s) /\ score_matches_length (combatant2 s) ->
  score_matches_length (combatant1 s') /\ score_matches_length (combatant2 s').
Proof.
  intros Hns H [I1 I2].
  apply (advance_game_inv ns s s' Hns) in H as (s1 & Hm & _ & Hi).
  destruct (first_half_detail s s1 Hm)
    as (h1 & t1 & h2 & t2 & E1 & E2 & S1 & S2 & T1 & T2 & _).
  assert (J : score_matches_length (combatant1 s1) /\ score_matches_length (combatant2 s1)).
  { unfold score_matches_length in *. rewrite S1, S2, T1, T2, I1, I2, E1, E2.
    cbn [length]. rewrite !length_removelast_cons. split; reflexivity. }
  assert (K : score_matches_length (combatant1 (after_battle_end s1)) /\
              score_matches_length (combatant2 (after_battle_end s1))).
  { destruct (after_battle_end_detail s1) as (_ & [(-> & -> & _)|(-> & -> & _)]).
    - exact J.
    - split; reflexivity. }
  destruct (tick_nonempty_mid s s1 Hm) as (g1 & u1 & g2 & u2 & F1 & F2).
  destruct (checks_detail _ s' g1 g2 u1 u2 F1 F2 Hi)
    as (e1 & e2 & X1 & _ & Y1 & _ & X2 & _ & Y2 & _).
  destruct K as [K1 K2]. unfold score_matches_length in *.
  rewrite X1, X2, Y1, Y2, K1, K2, F1, F2, !length_app. split; lia.
Qed.

(** X6: the tally is the growth.  For a reptile whose tally is 5 per
    segment beyond the first -- every newly constructed reptile is such --
    this stays so over any number of ticks: the only statement that adds to
    the tally is followed by [expand], and no battle reset keeps a tally. *)
Theorem tally_is_five_per_segment_gained (ns : Namespace) (n : nat) (s s' : t) (k : nat) :
  archive_as_specified ns ->
  score_matches_length (combatant1 s) ->
  score_matches_length (combatant2 s) ->
  run ns n s = Ok (s', k) ->
  score_matches_length (combatant1 s') /\ score_matches_length (combatant2 s').
Proof.
  intros Hns I1 I2. assert (I := conj I1 I2). clear I1 I2.
  revert s s' k I. induction n as [|n IH]; intros s s' k I H; cbn [run] in H.
  - injection H as <- _. exact I.
  - inv_bind H. inv_bind H. destruct a0 as [s2 k2]. injection H as <- _.
    cbn [fst]. apply (IH a s2 k2); [|exact Ha0].
    exact (tick_keeps_score_matching ns s a Hns Ha I).
Qed.

Lemma tally_is_five_per_segment_gained_witness :
  exists s',
    run written_class 3 feeding = Ok (s', 0%nat) /\
    Reptile.tally (combatant1 s') = 5 /\
    length (Reptile.segments (combatant1 s')) = 2%nat /\
    score_matches_length (combatant1 s').
Proof.
  assert (E : exists s', run written_class 3 feeding = Ok (s', 0%nat) /\
                         Reptile.tally (combatant1 s') = 5 /\
                         length (Reptile.segments (combatant1 s')) = 2%nat)
    by (vm_compute; eexists; repeat split).
  destruct E as (s' & E & T & L). exists s'.
  split; [exact E|]. split; [exact T|]. split; [exact L|].
  apply (tally_is_five_per_segment_gained written_class 3 feeding s' 0).
  - exact written_class_as_specified.
  - reflexivity.
  - reflexivity.
  - exact E.
Defined.

(** X7: what a tick can cost.  A tick takes at most 15 health from a
    reptile that had at most 100: 5 for each axis of the edge check and 5
    for a head inside the other body.  Whatever the orbs give back, the
    health is at most 100 afterwards. *)
Theorem tick_costs_at_most_15 (ns : Namespace) (s s' : t) :
  archive_as_specified ns ->
  Reptile.vitality (combatant1 s) <= 100 ->
  Reptile.vitality (combatant2 s) <= 100 ->
  advance_game ns s = Ok s' ->
  Reptile.vitality (combatant1 s) - 15 <= Reptile.vitality (combatant1 s') <= 100 /\
  Reptile.vitality (combatant2 s) - 15 <= Reptile.vitality (combatant2 s') <= 100.
Proof.
  intros Hns V1 V2 H.
  apply (advance_game_inv ns s s' Hns) in H as (s1 & Hm & _ & Hi).
  pose proof (move_and_check_edges_facts s s1 Hm)
    as (_ & _ & N1 & N2 & _ & _ & W1 & W2).
  destruct (after_battle_end_segments s1 N1 N2) as [(g1 & u1 & F1) (g2 & u2 & F2)].
  destruct (interaction_checks_ok _ g1 g2 u1 u2 F1 F2)
    as (s'' & Hi' & _ & _ & _ & _ & _ & _ & Y1 & Y2 & _).
  rewrite Hi in Hi'. injection Hi' as <-.
  assert (M : (Reptile.vitality (combatant1 s1) <= Reptile.vitality (combatant1 (after_battle_end s1)) <= 100) /\
              (Reptile.vitality (combatant2 s1) <= Reptile.vitality (combatant2 (after_battle_end s1)) <= 100)).
  { destruct (after_battle_end_detail s1) as (_ & [(-> & -> & _)|(-> & -> & _)]).
    - lia.
    - cbn. lia. }
  destruct M as [M1 M2].
  pose proof (heal_times_le_100 (length (orbs_at g1 (restorativeOrbs (after_battle_end s1))))
                _ (proj2 M1)).
  pose proof (heal_times_ge (length (orbs_at g1 (restorativeOrbs (after_battle_end s1))))
                _ (proj2 M1)).
  pose proof (heal_times_le_100
                (length (orbs_at g2 (filter (fun o => VitalityOrb.coordinates o <> g1)
                                       (restorativeOrbs (after_battle_end s1)))))
                _ (proj2 M2)).
  pose proof (heal_times_ge
                (length (orbs_at g2 (filter (fun o => VitalityOrb.coordinates o <> g1)
                                       (restorativeOrbs (after_battle_end s1)))))
                _ (proj2 M2)).
  rewrite Y1, Y2.
  destruct (bool_decide (g1 ∈ g2 :: u2)), (bool_decide (g2 ∈ g1 :: u1)); lia.
Qed.

Lemma tick_costs_at_most_15_witness :
  exists s',
    advance_game completed_class final_corner = Ok s' /\
    Reptile.vitality (combatant1 final_corner) - 15 <= Reptile.vitality (combatant1 s') <= 100.
Proof.
  assert (E : exists s', advance_game completed_class final_corner = Ok s')
    by (vm_compute; eauto).
  destruct E as (s' & E). exists s'. split; [exact E|].
  apply (tick_costs_at_most_15 completed_class final_corner s').
  - exact completed_class_as_specified.
  - cbn. lia.
  - cbn. lia.
  - exact E.
Defined.

(** ** Orb timer and collisions *)

(** X8: the orb timer never catches up.  A call of
    [replenish_vitality_orbs] either leaves the orbs and the timer as they
    were, or appends exactly one new orb and restarts the timer at the clock
    reading it has just taken, however many intervals were missed.  A whole
    tick therefore never adds more than one orb. *)
Theorem orb_timer_adds_one_at_a_time (ns : Namespace) (s s' : t) :
  archive_as_specified ns ->
  advance_game ns s = Ok s' ->
  (length (restorativeOrbs s') <= S (length (restorativeOrbs s)))%nat /\
  ((restorativeOrbs (replenish_vitality_orbs s) = restorativeOrbs s /\
    lastOrbRegen (replenish_vitality_orbs s) = lastOrbRegen s) \/
   (exists orb,
      restorativeOrbs (replenish_vitality_orbs s) = restorativeOrbs s ++ [orb] /\
      lastOrbRegen (replenish_vitality_orbs s) = wall_clock (world s) (reads (world s)))).
Proof.
  intros Hns H.
  apply (advance_game_inv ns s s' Hns) in H as (s1 & Hm & _ & Hi).
  destruct (first_half_detail s s1 Hm)
    as (_ & _ & _ & _ & _ & _ & _ & _ & _ & _ & _ & _ & _ & Ho & _).
  destruct (tick_nonempty_mid s s1 Hm) as (g1 & u1 & g2 & u2 & F1 & F2).
  destruct (checks_detail _ s' g1 g2 u1 u2 F1 F2 Hi)
    as (e1 & e2 & _ & _ & _ & _ & _ & _ & _ & _ & _ & Xo & _).
  assert (L : (length (restorativeOrbs s') <=
               length (restorativeOrbs (replenish_vitality_orbs s)))%nat).
  { rewrite Xo. unfold orbs_off.
    etransitivity; [apply length_filter|].
    destruct (after_battle_end_detail s1) as (_ & [(_ & _ & _ & ->)|(_ & _ & _ & ->)]).
    - rewrite Ho. reflexivity.
    - cbn [length]. lia. }
  split.
  - destruct (replenish_detail s) as [(E & _)|(orb & E & _)]; rewrite E in L;
      [|rewrite length_app in L; cbn [length] in L]; lia.
  - destruct (replenish_detail s) as [(E & El & _)|(orb & E & _ & _ & _ & El & _)].
    + left. split; [exact E|exact El].
    + right. exists orb. split; [exact E|exact El].
Qed.

Lemma orb_timer_adds_one_at_a_time_witness :
  exists s',
    advance_game written_class (set_lastOrbRegen (-100)%Q playing) = Ok s' /\
    length (restorativeOrbs s') = 1%nat.
Proof.
  assert (E : exists s', advance_game written_class (set_lastOrbRegen (-100)%Q playing) = Ok s'
                         /\ length (restorativeOrbs s') = 1%nat)
    by (vm_compute; eexists; split; reflexivity).
  destruct E as (s' & E & L). exists s'. split; [exact E|].
  destruct (orb_timer_adds_one_at_a_time written_class
              (set_lastOrbRegen (-100)%Q playing) s' written_class_as_specified E)
    as (B & _).
  exact L.
Defined.

(** X9: the collision check is one-sided per reptile and blind to
    self-collision.  A reptile loses 5 exactly when its head lies on a cell
    of the other body, so two heads on one cell cost both reptiles 5; a head
    on the reptile's own body costs nothing, although [detect_self_impact]
    reports it. *)
Theorem collisions_hurt_only_on_the_other_body
    (s : t) (h1 h2 : Point) (t1 t2 : list Point) :
  Reptile.segments (combatant1 s) = h1 :: t1 ->
  Reptile.segments (combatant2 s) = h2 :: t2 ->
  exists s',
    combatant_collisions s = Ok s' /\
    (h1 ∈ h2 :: t2 -> Reptile.vitality (combatant1 s') = Reptile.vitality (combatant1 s) - 5) /\
    (h1 ∉ h2 :: t2 -> Reptile.vitality (combatant1 s') = Reptile.vitality (combatant1 s)) /\
    (h2 ∈ h1 :: t1 -> Reptile.vitality (combatant2 s') = Reptile.vitality (combatant2 s) - 5) /\
    (h2 ∉ h1 :: t1 -> Reptile.vitality (combatant2 s') = Reptile.vitality (combatant2 s)) /\
    (h1 = h2 ->
     Reptile.vitality (combatant1 s') = Reptile.vitality (combatant1 s) - 5 /\
     Reptile.vitality (combatant2 s') = Reptile.vitality (combatant2 s) - 5) /\
    (h1 ∈ t1 -> h1 ∉ h2 :: t2 ->
     Reptile.detect_self_impact (combatant1 s) = Ok true /\
     Reptile.vitality (combatant1 s') = Reptile.vitality (combatant1 s)).
Proof.
  intros H1 H2.
  destruct (combatant_collisions_ok s h1 h2 t1 t2 H1 H2)
    as (s' & Hc & _ & _ & _ & _ & _ & _ & _ & _ & _ & _ & V1 & V2).
  exists s'. split; [exact Hc|]. rewrite V1, V2.
  repeat split.
  - intros Hin. rewrite bool_decide_eq_true_2 by exact Hin. reflexivity.
  - intros Hin. rewrite bool_decide_eq_false_2 by exact Hin. lia.
  - intros Hin. rewrite bool_decide_eq_true_2 by exact Hin. reflexivity.
  - intros Hin. rewrite bool_decide_eq_false_2 by exact Hin. lia.
  - subst h2. rewrite bool_decide_eq_true_2 by left. reflexivity.
  - subst h2. rewrite (bool_decide_eq_true_2 (h1 ∈ h1 :: t1)) by left. reflexivity.
  - unfold Reptile.detect_self_impact. rewrite H1. cbn [getitem0 bind drop].
    rewrite bool_decide_eq_true_2 by assumption. reflexivity.
  - rewrite bool_decide_eq_false_2 by assumption. lia.
Qed.

Lemma collisions_hurt_only_on_the_other_body_witness :
  exists s',
    combatant_collisions
      (set_combatant1 (Reptile.mk [mkPoint 3 3; mkPoint 4 3; mkPoint 3 3]
                         MOVE_LEFT COLOR_YELLOW 100 10) playing) = Ok s' /\
    Reptile.vitality (combatant1 s') = 100.
Proof.
  destruct (collisions_hurt_only_on_the_other_body
              (set_combatant1 (Reptile.mk [mkPoint 3 3; mkPoint 4 3; mkPoint 3 3]
                                 MOVE_LEFT COLOR_YELLOW 100 10) playing)
              (mkPoint 3 3) SPAWN2 [mkPoint 4 3; mkPoint 3 3] [])
    as (s' & Hc & _ & _ & _ & _ & _ & Hself); [reflexivity|reflexivity|].
  exists s'. split; [exact Hc|].
  destruct Hself as [_ Hv].
  - right. left.
  - intros Hin. apply list_elem_of_singleton in Hin. discriminate Hin.
  - exact Hv.
Defined.

(** ** Round-count entry from the keyboard *)

Lemma digit_is_plain (c : ascii) :
  is_digit c = true ->
  is_space c = false /\ c <> "-"%char /\ c <> "+"%char /\ c <> "_"%char /\
  0 <= Z.of_nat (nat_of_ascii c) - 48 <= 9.
Proof.
  destruct c as [[] [] [] [] [] [] [] []]; vm_compute; intros H;
    try discriminate H; repeat split; try discriminate; congruence.
Qed.

Lemma list_ascii_of_append (a b : string) :
  list_ascii_of_string (a +:+ b) = list_ascii_of_string a ++ list_ascii_of_string b.
Proof.
  induction a as [|c a IH]; [reflexivity|].
  change (String c a +:+ b) with (String c (a +:+ b)).
  cbn [list_ascii_of_string app]. f_equal. exact IH.
Qed.

(** X12: backspace undoes a key.  While the prompt is open, a key that
    produced one digit followed by backspace leaves the controller exactly
    as it was. *)
Theorem backspace_undoes_a_digit (ns : Namespace) (s : t) (key : Key) (d : ascii) (u : string) :
  isAcceptingInput s = true ->
  key <> K_BACKSPACE ->
  is_digit d = true ->
  manage_interactions ns
    [KEYDOWN key (String d EmptyString); KEYDOWN K_BACKSPACE u] s = Ok s.
Proof.
  intros Hacc Hkey Hd.
  unfold manage_interactions; cbn [manage_interactions_with handle_event_with builtin_isdigit builtin_int ascii_builtins]. rewrite Hacc.
  rewrite bool_decide_eq_false_2 by exact Hkey.
  assert (Hu : isdigit (String d EmptyString) = true)
    by (cbn [isdigit list_ascii_of_string forallb]; rewrite Hd; reflexivity).
  rewrite Hu. cbn [bind handle_event_with builtin_isdigit builtin_int ascii_builtins isAcceptingInput set_enteredText enteredText].
  rewrite Hacc. rewrite bool_decide_eq_true_2 by reflexivity. cbn [bind].
  f_equal. unfold drop_last_char.
  rewrite list_ascii_of_append. cbn [list_ascii_of_string].
  rewrite removelast_last, string_of_list_ascii_of_string.
  destruct s; reflexivity.
Qed.

Lemma backspace_undoes_a_digit_witness :
  manage_interactions written_class
    [KEYDOWN (K_other 55) "7"; KEYDOWN K_BACKSPACE EmptyString] (configuring "3")
    = Ok (configuring "3").
Proof.
  apply (backspace_undoes_a_digit written_class (configuring "3") (K_other 55) "7"%char);
    [reflexivity|discriminate|reflexivity].
Defined.

(** ** Steering and the phases *)

Lemma steer1_cases (key : Key) (r : Reptile.t) :
  steer1 key r = r \/
  exists d, unit_direction d /\ steer1 key r = Reptile.set_move_direction d r.
Proof.
  unfold steer1, unit_direction.
  repeat (match goal with
          | |- context [if ?c then _ else _] => destruct c
          end); eauto; right; eexists; (split; [|reflexivity]); set_solver.
Qed.

Lemma steer2_cases (key : Key) (r : Reptile.t) :
  steer2 key r = r \/
  exists d, unit_direction d /\ steer2 key r = Reptile.set_move_direction d r.
Proof.
  unfold steer2, unit_direction.
  repeat (match goal with
          | |- context [if ?c then _ else _] => destruct c
          end); eauto; right; eexists; (split; [|reflexivity]); set_solver.
Qed.

(** X13: one key, one guarded turn.  In play a key event gives each
    reptile either its old direction or one of the four motion directions,
    never the opposite of the direction it had when the event was handled;
    bodies, health and tallies are untouched; W, A, S, D leave reptile 2
    alone and the arrow keys leave reptile 1 alone. *)
Theorem one_key_never_reverses (ns : Namespace) (s : t) (key : Key) (u : string) :
  isAcceptingInput s = false ->
  isInPlay s = true ->
  isPaused s = false ->
  unit_direction (Reptile.move_direction (combatant1 s)) ->
  unit_direction (Reptile.move_direction (combatant2 s)) ->
  exists s',
    handle_event ns s (KEYDOWN key u) = Ok s' /\
    Reptile.move_direction (combatant1 s') <> opposite (Reptile.move_direction (combatant1 s)) /\
    Reptile.move_direction (combatant2 s') <> opposite (Reptile.move_direction (combatant2 s)) /\
    unit_direction (Reptile.move_direction (combatant1 s')) /\
    unit_direction (Reptile.move_direction (combatant2 s')) /\
    Reptile.set_move_direction (Reptile.move_direction (combatant1 s)) (combatant1 s')
      = combatant1 s /\
    Reptile.set_move_direction (Reptile.move_direction (combatant2 s)) (combatant2 s')
      = combatant2 s /\
    (key ∈ [K_w; K_a; K_s; K_d] -> combatant2 s' = combatant2 s) /\
    (key ∈ [K_UP; K_LEFT; K_DOWN; K_RIGHT] -> combatant1 s' = combatant1 s).
Proof.
  intros Hacc Hplay Hpause U1 U2.
  unfold handle_event; cbn [handle_event_with builtin_isdigit builtin_int ascii_builtins]. rewrite Hacc, Hplay, Hpause. cbn [andb negb].
  eexists. split; [reflexivity|].
  cbn [combatant1 combatant2 on_combatant1 on_combatant2 set_combatant1 set_combatant2].
  split; [apply steer1_not_opposite, U1|].
  split; [apply steer2_not_opposite, U2|].
  split; [destruct (steer1_cases key (combatant1 s)) as [->|(d & Hd & ->)]; assumption|].
  split; [destruct (steer2_cases key (combatant2 s)) as [->|(d & Hd & ->)]; assumption|].
  split; [destruct (steer1_cases key (combatant1 s)) as [->|(d & Hd & ->)];
          destruct (combatant1 s); reflexivity|].
  split; [destruct (steer2_cases key (combatant2 s)) as [->|(d & Hd & ->)];
          destruct (combatant2 s); reflexivity|].
  split; intros Hk; set_unfold;
    destruct Hk as [->|[->|[->|[->|[]]]]]; reflexivity.
Qed.

Lemma one_key_never_reverses_witness :
  exists s',
    handle_event written_class playing (KEYDOWN K_a "a") = Ok s' /\
    Reptile.move_direction (combatant1 s') = MOVE_RIGHT.
Proof.
  destruct (one_key_never_reverses written_class playing K_a "a")
    as (s' & H & _); try reflexivity.
  - left.
  - right; left.
  - exists s'. split; [exact H|].
    vm_compute in H. injection H as <-. reflexivity.
Defined.

Lemma handle_event_keeps_directions (ns : Namespace) (s s' : t) (e : Event) :
  ns !! "restart_battle" = None ->
  handle_event ns s e = Ok s' ->
  unit_direction (Reptile.move_direction (combatant1 s)) /\
  unit_direction (Reptile.move_direction (combatant2 s)) ->
  unit_direction (Reptile.move_direction (combatant1 s')) /\
  unit_direction (Reptile.move_direction (combatant2 s')).
Proof.
  intros Hns H [U1 U2]. destruct e as [|pos|key unicode|]; unfold handle_event in H; cbn [handle_event_with builtin_isdigit builtin_int ascii_builtins] in H.
  - injection H as <-. auto.
  - destruct (isAcceptingInput s).
    + destruct (clicked "confirm" pos s); [|injection H as <-; auto].
      unfold confirm_rounds_with in H; cbn [builtin_isdigit builtin_int ascii_builtins] in H.
      destruct (py_int (enteredText s)) as [n|[]]; try discriminate;
        injection H as <-; auto.
    + destruct (clicked "initiate" pos s); [injection H as <-; auto|].
      destruct (isOver s).
      * destruct (clicked "replay" pos s).
        -- unfold call_method, Method in *. rewrite Hns in H. discriminate.
        -- destruct (clicked "end" pos s); injection H as <-; auto.
      * destruct (negb (isInPlay s) && negb false); [|injection H as <-; auto].
        destruct (clicked "end" pos s); injection H as <-; auto.
  - destruct (isAcceptingInput s).
    + destruct (bool_decide (key = K_BACKSPACE)); [injection H as <-; auto|].
      destruct (isdigit unicode); injection H as <-; auto.
    + destruct (isInPlay s && negb (isPaused s)); injection H as <-; [|auto].
      cbn [combatant1 combatant2 on_combatant1 on_combatant2 set_combatant1 set_combatant2].
      split.
      * destruct (steer1_cases key (combatant1 s)) as [->|(d & Hd & ->)]; assumption.
      * destruct (steer2_cases key (combatant2 s)) as [->|(d & Hd & ->)]; assumption.
  - injection H as <-. auto.
Qed.

Lemma tick_keeps_directions (ns : Namespace) (s s' : t) :
  archive_as_specified ns ->
  advance_game ns s = Ok s' ->
  unit_direction (Reptile.move_direction (combatant1 s)) /\
  unit_direction (Reptile.move_direction (combatant2 s)) ->
  unit_direction (Reptile.move_direction (combatant1 s')) /\
  unit_direction (Reptile.move_direction (combatant2 s')).
Proof.
  intros Hns H [U1 U2].
  apply (advance_game_inv ns s s' Hns) in H as (s1 & Hm & _ & Hi).
  destruct (first_half_detail s s1 Hm)
    as (_ & _ & _ & _ & _ & _ & _ & _ & _ & _ & D1 & D2 & _).
  destruct (tick_nonempty_mid s s1 Hm) as (g1 & u1 & g2 & u2 & F1 & F2).
  destruct (checks_detail _ s' g1 g2 u1 u2 F1 F2 Hi)
    as (e1 & e2 & _ & _ & _ & -> & _ & _ & _ & -> & _).
  destruct (after_battle_end_detail s1) as (_ & [(-> & -> & _)|(-> & -> & _)]).
  - rewrite D1, D2. auto.
  - unfold unit_direction. cbn. split; [left|right; left].
Qed.

Lemma run_keeps_directions (ns : Namespace) (n : nat) :
  archive_as_specified ns ->
  forall (s s' : t) (k : nat),
    run ns n s = Ok (s', k) ->
    unit_direction (Reptile.move_direction (combatant1 s)) /\
    unit_direction (Reptile.move_direction (combatant2 s)) ->
    unit_direction (Reptile.move_direction (combatant1 s')) /\
    unit_direction (Reptile.move_direction (combatant2 s')).
Proof.
  intros Hns. induction n as [|n IH]; intros s s' k H U; cbn [run] in H.
  - injection H as <- _. exact U.
  - inv_bind H. inv_bind H. destruct a0 as [s2 k2]. injection H as <- _.
    cbn [fst]. apply (IH a s2 k2 Ha0).
    exact (tick_keeps_directions ns s a Hns Ha U).
Qed.

Lemma manage_interactions_keeps_directions (ns : Namespace) (events : list Event) :
  ns !! "restart_battle" = None ->
  forall s s' : t,
    manage_interactions ns events s = Ok s' ->
    unit_direction (Reptile.move_direction (combatant1 s)) /\
    unit_direction (Reptile.move_direction (combatant2 s)) ->
    unit_direction (Reptile.move_direction (combatant1 s')) /\
    unit_direction (Reptile.move_direction (combatant2 s')).
Proof.
  intros Hns. induction events as [|e events IH]; intros s s' H U;
    unfold manage_interactions in H; cbn [manage_interactions_with] in H;
    change (manage_interactions_with ascii_builtins) with manage_interactions in H;
    change (handle_event_with ascii_builtins) with handle_event in H.
  - injection H as <-. exact U.
  - inv_bind H. apply (IH a s' H).
    exact (handle_event_keeps_directions ns s a e Hns Ha U).
Qed.

(** X14: the reptiles always head in one of the four motion directions.
    Starting from such directions (a new reptile has one), no sequence of
    event batches and ticks gives a reptile any other direction, so [move]
    always steps to a neighbouring cell of the torus. *)
Theorem directions_stay_unit (ns : Namespace) (script : list Step) (s s' : t) :
  archive_as_specified ns ->
  ns !! "restart_battle" = None ->
  unit_direction (Reptile.move_direction (combatant1 s)) ->
  unit_direction (Reptile.move_direction (combatant2 s)) ->
  play ns script s = Ok s' ->
  unit_direction (Reptile.move_direction (combatant1 s')) /\
  unit_direction (Reptile.move_direction (combatant2 s')).
Proof.
  intros Ha Hr U1 U2. assert (U := conj U1 U2). clear U1 U2.
  revert s U. induction script as [|[events|n] script IH]; intros s U H;
    unfold play in H; cbn [play_with] in H;
    change (play_with ascii_builtins) with play in H;
    change (manage_interactions_with ascii_builtins) with manage_interactions in H.
  - injection H as <-. exact U.
  - inv_bind H. apply (IH a); [|exact H].
    exact (manage_interactions_keeps_directions ns events Hr s a Ha0 U).
  - inv_bind H. destruct a as [s2 k2]. cbn [fst] in H. apply (IH s2); [|exact H].
    exact (run_keeps_directions ns n Ha s s2 k2 Ha0 U).
Qed.

Lemma directions_stay_unit_witness :
  exists s',
    play written_class to_the_corner playing = Ok s' /\
    unit_direction (Reptile.move_direction (combatant1 s')) /\
    unit_direction (Reptile.move_direction (combatant2 s')).
Proof.
  assert (E : exists s', play written_class to_the_corner playing = Ok s')
    by (vm_compute; eauto).
  destruct E as (s' & E). exists s'. split; [exact E|].
  apply (directions_stay_unit written_class to_the_corner playing s').
  - exact written_class_as_specified.
  - reflexivity.
  - left.
  - right; left.
  - exact E.
Defined.

Lemma run_session_forward (ns : Namespace) (n : nat) :
  archive_as_specified ns ->
  forall (s s' : t) (k : nat),
    run ns n s = Ok (s', k) ->
    totalRounds s' = totalRounds s /\
    currentBattle s <= currentBattle s' /\
    (currentBattle s <= totalRounds s -> currentBattle s' <= totalRounds s) /\
    (isOver s = true -> isOver s' = true) /\
    (isOver s' = true -> isOver s = true \/ totalRounds s <= currentBattle s').
Proof.
  intros Hns. induction n as [|n IH]; intros s s' k H; cbn [run] in H.
  - injection H as <- _.
    split; [reflexivity|]. split; [lia|]. split; [auto|]. split; auto.
  - inv_bind H. inv_bind H. destruct a0 as [s2 k2]. injection H as <- _.
    cbn [fst].
    destruct (IH a s2 k2 Ha0) as (T & B & W & O & O').
    pose proof (tick_facts ns s a Hns Ha) as (Ta & _ & Hcase).
    rewrite Ta in T, W, O'.
    destruct (tick_ends_battle s) eqn:Eb;
      destruct (currentBattle s <? totalRounds s) eqn:El;
      cbn [andb] in Hcase;
      try apply Z.ltb_lt in El; try apply Z.ltb_ge in El.
    + destruct Hcase as [Bc Oc]. rewrite Oc in O, O'.
      split; [exact T|]. split; [lia|]. split; [intros _; apply W; lia|].
      split; [exact O|exact O'].
    + destruct Hcase as (Bc & Oc & _). rewrite orb_true_r in Oc.
      split; [exact T|]. split; [lia|]. split; [intros Hle; apply W; lia|].
      split; [intros _; apply O; exact Oc|].
      intros _. right. lia.
    + destruct Hcase as (Bc & Oc & _). rewrite orb_false_r in Oc. rewrite Oc in O, O'.
      split; [exact T|]. split; [lia|]. split; [intros Hle; apply W; lia|].
      split; [exact O|exact O'].
    + destruct Hcase as (Bc & Oc & _). rewrite orb_false_r in Oc. rewrite Oc in O, O'.
      split; [exact T|]. split; [lia|]. split; [intros Hle; apply W; lia|].
      split; [exact O|exact O'].
Qed.

(** X15: the session only moves forward.  Over any number of ticks the
    total stays as configured, the battle index never goes down, and a
    session that is over stays over; the session is only ever declared over
    with the index at or beyond the total.  If the index started within the
    total it never passes it, and the session is then declared over with the
    index exactly at the total. *)
Theorem session_only_moves_forward (ns : Namespace) (n : nat) (s s' : t) (k : nat) :
  archive_as_specified ns ->
  run ns n s = Ok (s', k) ->
  totalRounds s' = totalRounds s /\
  currentBattle s <= currentBattle s' /\
  (isOver s = true -> isOver s' = true) /\
  (isOver s' = true -> isOver s = true \/ totalRounds s <= currentBattle s') /\
  (currentBattle s <= totalRounds s ->
   currentBattle s' <= totalRounds s /\
   (isOver s' = true -> isOver s = true \/ currentBattle s' = totalRounds s)).
Proof.
  intros Hns H.
  destruct (run_session_forward ns n Hns s s' k H) as (T & B & W & O & O').
  split; [exact T|]. split; [exact B|]. split; [exact O|]. split; [exact O'|].
  intros Hle. split; [exact (W Hle)|].
  intros Ho. destruct (O' Ho) as [Hs|Hge]; [left; exact Hs|right].
  specialize (W Hle). lia.
Qed.

Lemma session_only_moves_forward_witness :
  exists s',
    run completed_class 831 last_stand = Ok (s', 3%nat) /\
    currentBattle s' = 3 /\ totalRounds s' = 3 /\ isOver s' = true.
Proof.
  assert (E : exists s', run completed_class 831 last_stand = Ok (s', 3%nat) /\
                         currentBattle s' = 3 /\ isOver s' = true)
    by (vm_compute; eexists; repeat split; reflexivity).
  destruct E as (s' & E & B & V). exists s'. split; [exact E|]. split; [exact B|].
  destruct (session_only_moves_forward completed_class 831 last_stand s' 3
              completed_class_as_specified E) as (T & _).
  rewrite T. split; [reflexivity|exact V].
Defined.

(** X16: keys steer only in play.  While the round prompt is open, while
    no battle is in play or while the game is paused, a key event leaves
    both reptiles as they are. *)
Theorem keys_steer_only_in_play (ns : Namespace) (s s' : t) (key : Key) (u : string) :
  isAcceptingInput s = true \/ isInPlay s = false \/ isPaused s = true ->
  handle_event ns s (KEYDOWN key u) = Ok s' ->
  combatant1 s' = combatant1 s /\ combatant2 s' = combatant2 s /\
  (isAcceptingInput s = false -> s' = s).
Proof.
  intros Hphase H. unfold handle_event in H; cbn [handle_event_with builtin_isdigit builtin_int ascii_builtins] in H.
  destruct (isAcceptingInput s) eqn:Hacc.
  - destruct (bool_decide (key = K_BACKSPACE)); [injection H as <-; repeat split; discriminate|].
    destruct (isdigit u); injection H as <-; repeat split; discriminate.
  - destruct Hphase as [Hp|[Hp|Hp]]; [discriminate|rewrite Hp in H|rewrite Hp in H].
    + cbn [andb] in H. injection H as <-. auto.
    + cbn [negb] in H. rewrite andb_false_r in H. injection H as <-. auto.
Qed.

Lemma keys_steer_only_in_play_witness :
  handle_event written_class (configuring "3") (KEYDOWN K_a "a") = Ok (configuring "3").
Proof.
  assert (E : exists s', handle_event written_class (configuring "3") (KEYDOWN K_a "a") = Ok s'
                         /\ s' = configuring "3")
    by (vm_compute; eexists; split; reflexivity).
  destruct E as (s' & E & Hs).
  destruct (keys_steer_only_in_play written_class (configuring "3") s' K_a "a")
    as (_ & _ & _); [left; reflexivity|exact E|].
  rewrite E, Hs. reflexivity.
Defined.

(** X17: the round count can be changed in the middle of a battle.  The
    start button stays registered while a battle is in play: a click on its
    rectangle opens the prompt, and typing one digit and confirming resumes
    play with the new total, the battle index, both reptiles, the orbs, the
    food and the score history being exactly as they were. *)
Theorem round_count_changes_mid_battle
    (ns : Namespace) (s : t) (pos1 pos2 : Z * Z) (key : Key) (d : ascii) :
  isAcceptingInput s = false ->
  enteredText s = EmptyString ->
  clicked "initiate" pos1 s = true ->
  clicked "confirm" pos2 s = true ->
  key <> K_BACKSPACE ->
  is_digit d = true ->
  manage_interactions ns
    [MOUSEBUTTONDOWN pos1; KEYDOWN key (String d EmptyString); MOUSEBUTTONDOWN pos2] s
  = Ok (set_isInPlay true (set_totalRounds (Z.of_nat (nat_of_ascii d) - 48) s)) /\
  0 <= Z.of_nat (nat_of_ascii d) - 48 <= 9.
Proof.
  intros Hacc Htext Hinit Hconf Hkey Hd.
  destruct (digit_is_plain d Hd) as (_ & _ & _ & _ & Hv).
  split; [|exact Hv].
  unfold manage_interactions; cbn [manage_interactions_with handle_event_with builtin_isdigit builtin_int ascii_builtins]. rewrite Hacc, Hinit. cbn [bind].
  cbn [handle_event_with builtin_isdigit builtin_int ascii_builtins isAcceptingInput set_isAcceptingInput set_isInPlay].
  rewrite bool_decide_eq_false_2 by exact Hkey.
  assert (Hu : isdigit (String d EmptyString) = true)
    by (cbn [isdigit list_ascii_of_string forallb]; rewrite Hd; reflexivity).
  rewrite Hu. cbn [bind handle_event_with builtin_isdigit builtin_int ascii_builtins isAcceptingInput set_enteredText].
  change (clicked "confirm" pos2 (set_enteredText _ _)) with (clicked "confirm" pos2 s).
  rewrite Hconf. unfold confirm_rounds_with; cbn [builtin_isdigit builtin_int ascii_builtins].
  cbn [enteredText set_enteredText set_isInPlay set_isAcceptingInput].
  rewrite Htext.
  assert (Hp : py_int (EmptyString +:+ String d EmptyString)
               = Ok (Z.of_nat (nat_of_ascii d) - 48)).
  { clear -Hd. destruct d as [[] [] [] [] [] [] [] []]; try discriminate Hd; reflexivity. }
  rewrite Hp. cbn [bind]. f_equal.
  destruct s. cbn in *. subst. reflexivity.
Qed.

Lemma round_count_changes_mid_battle_witness :
  manage_interactions written_class
    [MOUSEBUTTONDOWN (600, 300); KEYDOWN (K_other 53) "5"; MOUSEBUTTONDOWN (600, 520)]
    playing
  = Ok (set_totalRounds 5 playing).
Proof.
  destruct (round_count_changes_mid_battle written_class playing
              (600, 300) (600, 520) (K_other 53) "5"%char) as [H _].
  - reflexivity.
  - reflexivity.
  - vm_compute. reflexivity.
  - vm_compute. reflexivity.
  - discriminate.
  - reflexivity.
  - rewrite H. reflexivity.
Defined.

(** ** Drawing *)

Lemma cell_rect_on_canvas (c : Point) :
  in_grid c ->
  on_canvas (mkRect (px c * REPTILE_DIMENSION) (py c * REPTILE_DIMENSION)
                    REPTILE_DIMENSION REPTILE_DIMENSION).
Proof.
  unfold in_grid, on_canvas. cbn [rect_left rect_top rect_width rect_height].
  change GRID_W with 60. change GRID_H with 45.
  change REPTILE_DIMENSION with 20. change DISPLAY_WIDTH with 1200.
  change DISPLAY_HEIGHT with 900. lia.
Qed.

(** X18: what is drawn stays on the canvas.  [render_reptile] draws one
    20 x 20 square per segment, in body order; for segments in the grid
    every square lies within the 1200 x 900 canvas, and the squares of two
    different cells do not overlap.  The circle [VitalityOrb.render] draws
    for an orb in the grid touches the four sides of the orb's cell square
    from inside. *)
Theorem drawings_stay_on_canvas (r : Reptile.t) (o : VitalityOrb.t) :
  Forall in_grid (Reptile.segments r) ->
  in_grid (VitalityOrb.coordinates o) ->
  length (render_reptile r) = length (Reptile.segments r) /\
  Forall (fun d => fst d = Reptile.tint r /\ on_canvas (snd d) /\
                   rect_width (snd d) = 20 /\ rect_height (snd d) = 20)
         (render_reptile r) /\
  (forall i j ci cj di dj,
     Reptile.segments r !! i = Some ci ->
     Reptile.segments r !! j = Some cj ->
     render_reptile r !! i = Some di ->
     render_reptile r !! j = Some dj ->
     ci <> cj ->
     forall p, collidepoint (snd di) p = true -> collidepoint (snd dj) p = false) /\
  (let '((cx, cy), radius) := VitalityOrb.render o in
   cx - radius = px (VitalityOrb.coordinates o) * REPTILE_DIMENSION /\
   cx + radius = px (VitalityOrb.coordinates o) * REPTILE_DIMENSION + REPTILE_DIMENSION /\
   cy - radius = py (VitalityOrb.coordinates o) * REPTILE_DIMENSION /\
   cy + radius = py (VitalityOrb.coordinates o) * REPTILE_DIMENSION + REPTILE_DIMENSION /\
   0 <= cx - radius /\ cx + radius <= DISPLAY_WIDTH /\
   0 <= cy - radius /\ cy + radius <= DISPLAY_HEIGHT).
Proof.
  intros Hseg Horb. unfold render_reptile.
  split; [apply length_map|].
  split.
  { apply Forall_forall. intros d Hd.
    apply list_elem_of_In, in_map_iff in Hd as (c & <- & Hc).
    cbn [fst snd rect_width rect_height].
    split; [reflexivity|]. split; [|split; reflexivity].
    apply cell_rect_on_canvas.
    rewrite Forall_forall in Hseg. apply Hseg, list_elem_of_In, Hc. }
  split.
  { intros i j ci cj di dj Hi Hj Hdi Hdj Hne p Hp.
    change (map ?f ?l) with (f <$> l) in Hdi, Hdj.
    rewrite list_lookup_fmap, Hi in Hdi. rewrite list_lookup_fmap, Hj in Hdj.
    cbn in Hdi, Hdj. injection Hdi as <-. injection Hdj as <-.
    unfold collidepoint in *. cbn [snd rect_left rect_top rect_width rect_height] in *.
    change REPTILE_DIMENSION with 20 in *.
    destruct ci as [xi yi], cj as [xj yj]. cbn [px py] in *.
    assert (xi <> xj \/ yi <> yj) as Hd by (destruct (decide (xi = xj)); [right|left]; congruence).
    destruct p as [a b]. cbn [fst snd] in *.
    repeat rewrite andb_true_iff in Hp. destruct Hp as [[[P1 P2] P3] P4].
    apply Z.leb_le in P1, P3. apply Z.ltb_lt in P2, P4.
    apply not_true_is_false. intros Hq.
    repeat rewrite andb_true_iff in Hq. destruct Hq as [[[Q1 Q2] Q3] Q4].
    apply Z.leb_le in Q1, Q3. apply Z.ltb_lt in Q2, Q4.
    destruct Hd as [Hd|Hd]; apply Hd; lia. }
  unfold VitalityOrb.render, in_grid, VitalityOrb.ORB_RADIUS in *.
  change GRID_W with 60 in Horb. change GRID_H with 45 in Horb.
  change REPTILE_DIMENSION with 20. change DISPLAY_WIDTH with 1200.
  change DISPLAY_HEIGHT with 900. change (20 / 2) with 10.
  lia.
Qed.

Lemma drawings_stay_on_canvas_witness :
  length (render_reptile edge_runner) = 2%nat /\
  render_reptile edge_runner !! 0%nat = Some (COLOR_YELLOW, mkRect 1180 60 20 20).
Proof.
  destruct (drawings_stay_on_canvas edge_runner (VitalityOrb.mk 0 (mkPoint 59 44)))
    as (L & _).
  - unfold in_grid. repeat constructor; vm_compute; discriminate.
  - unfold in_grid. vm_compute. repeat split; discriminate.
  - split; [exact L|reflexivity].
Defined.

(** X19: the food goes to reptile 1 first.  With both heads on the food
    cell, reptile 1 eats it (tally + 5, one more segment) and the food is
    drawn anew before reptile 2 is tested; reptile 2 gets nothing unless the
    new food landed on that same cell again. *)
Theorem food_goes_to_reptile_1_first (s : t) (h : Point) (t1 t2 : list Point) :
  Reptile.segments (combatant1 s) = h :: t1 ->
  Reptile.segments (combatant2 s) = h :: t2 ->
  nourishment s = h ->
  exists a s',
    eat1 s = Ok a /\
    eat2 a = Ok s' /\
    Reptile.tally (combatant1 s') = Reptile.tally (combatant1 s) + 5 /\
    length (Reptile.segments (combatant1 s')) = S (length (Reptile.segments (combatant1 s))) /\
    nourishment a = fst (generate_nourishment (world s)) /\
    (fst (generate_nourishment (world s)) <> h ->
     combatant2 s' = combatant2 s /\ nourishment s' = nourishment a) /\
    (fst (generate_nourishment (world s)) = h ->
     Reptile.tally (combatant2 s') = Reptile.tally (combatant2 s) + 5).
Proof.
  intros H1 H2 Hfood.
  destruct (eat1_ok s h t1 H1) as (a & Ha & _ & A2 & _ & _ & _ & Aeat).
  rewrite bool_decide_eq_true_2 in Aeat by exact Hfood.
  destruct Aeat as ((tl & As) & At & An & _).
  assert (H2a : Reptile.segments (combatant2 a) = h :: t2) by (rewrite A2; exact H2).
  destruct (eat2_ok a h t2 H2a) as (s' & Hs' & _ & B1 & _ & _ & _ & Beat).
  exists a, s'. split; [exact Ha|]. split; [exact Hs'|].
  rewrite B1, At, As, H1, length_app. cbn [length].
  split; [reflexivity|]. split; [lia|]. split; [exact An|]. split.
  - intros Hne. rewrite bool_decide_eq_false_2 in Beat by (rewrite An; exact Hne).
    rewrite Beat. split; [exact A2|reflexivity].
  - intros He. rewrite bool_decide_eq_true_2 in Beat by (rewrite An; exact He).
    destruct Beat as (_ & Bt & _). rewrite Bt, A2. reflexivity.
Qed.

Lemma food_goes_to_reptile_1_first_witness :
  exists a s',
    eat1 (set_nourishment SPAWN1 (set_combatant2 (Reptile.init SPAWN1 MOVE_LEFT COLOR_ORANGE)
                                    playing)) = Ok a /\
    eat2 a = Ok s' /\
    Reptile.tally (combatant1 s') = 5 /\
    Reptile.tally (combatant2 s') = 0.
Proof.
  destruct (food_goes_to_reptile_1_first
              (set_nourishment SPAWN1
                 (set_combatant2 (Reptile.init SPAWN1 MOVE_LEFT COLOR_ORANGE) playing))
              SPAWN1 [] [])
    as (a & s' & Ha & Hs & T1 & _ & _ & Hother & _); [reflexivity|reflexivity|reflexivity|].
  exists a, s'. split; [exact Ha|]. split; [exact Hs|]. split; [rewrite T1; reflexivity|].
  destruct Hother as [C2 _]; [vm_compute; discriminate|].
  rewrite C2. reflexivity.
Defined.
